(** * Atrix DEX UI: the derived market state of [src/utils/markets.tsx]

    A shallow embedding of the order-book computations, the balance
    reconciliation, the cache keys and the route table of the trading UI,
    followed by the properties the specification states about them.

    JavaScript's [number] is IEEE 754 binary64; it is embedded as Rocq's
    primitive [float], whose operations are the same binary64 operations
    (round to nearest, ties to even), so a concrete evaluation below is the
    value a JavaScript engine computes. *)

From Stdlib Require Import ZArith Floats Bool List Lia.
From stdpp Require Import gmap strings list.

Set Default Proof Using "Type".
Open Scope Z_scope.

(** ** JavaScript values *)

Module JS.

Abbreviation number := float (only parsing).

(** An integer converted to the nearest binary64 ([Number(n)]). *)
Definition of_Z (z : Z) : number :=
  SF2Prim (binary_normalize prec emax z 0 false).

(** [a > b]; false as soon as one side is NaN. *)
Definition gt (a b : number) : bool := PrimFloat.ltb b a.

(** [Math.min(a, b)]: NaN when one argument is NaN, and [-0] below [+0]. *)
Definition Math_min (a b : number) : number :=
  if is_nan a || is_nan b then nan
  else if PrimFloat.ltb a b then a
  else if PrimFloat.ltb b a then b
  else match classify a with NZero => a | _ => b end.

(** [Math.floor(x)]: the largest integer not above [x]; zeros, infinities
    and NaN are returned as they are. *)
Definition Math_floor (x : number) : number :=
  match Prim2SF x with
  | S754_finite s m e =>
      let z := Z.shiftl (cond_Zopp s (Zpos m)) e in
      if Z.eqb z 0 then zero else of_Z z
  | _ => x
  end.

(** ToBoolean, by the type of the value. *)
Class Truthy (A : Type) := truthy : A -> bool.

(** A number is falsy when it is [+0], [-0] or NaN. *)
#[export] Instance number_truthy : Truthy number :=
  fun x => negb (is_zero x || is_nan x).

#[export] Instance bool_truthy : Truthy bool := fun b => b.

(** The empty string is the only falsy string. *)
#[export] Instance string_truthy : Truthy string :=
  fun s => negb (String.eqb s "").

(** Every object is truthy, and an array is an object: [!![]] is [true]. *)
#[export] Instance array_truthy {A} : Truthy (list A) := fun _ => true.

(** [null], [undefined] and [false] are written [None]. *)
#[export] Instance option_truthy {A} `{Truthy A} : Truthy (option A) :=
  fun o => match o with Some a => truthy a | None => false end.

(** [Array.prototype.sort(compareFn)]: a stable sort; [x] goes after [y]
    exactly when [compareFn(x, y) > 0]. *)
Fixpoint sort_insert {A} (compareFn : A -> A -> number) (x : A) (l : list A) : list A :=
  match l with
  | [] => [x]
  | y :: l' =>
      if gt (compareFn x y) 0 then y :: sort_insert compareFn x l'
      else x :: l
  end.

Definition sort {A} (compareFn : A -> A -> number) (l : list A) : list A :=
  foldr (sort_insert compareFn) [] l.

End JS.
Import JS.

(** ** The order book *)

(** A price level of the aggregated book, as [getL2] yields it. *)
Record Level := { price : number; quantity : number }.

(** The [Orderbook] object of the exchange library, seen through its one
    method [getL2(depth, asks)]: the aggregated levels of a side, best
    price first. *)
Record Orderbook := { getL2 : nat -> bool -> list Level }.

#[export] Instance Orderbook_truthy : Truthy Orderbook := fun _ => true.

(** What a local variable of [getExpectedFillPrice] can hold. *)
Inductive value :=
  | Undefined
  | Num (n : number)
  | Obj (l : Level).

(** ToNumber: [undefined] and a plain object both convert to NaN. *)
Definition ToNumber (v : value) : number :=
  match v with
  | Undefined => nan
  | Num n => n
  | Obj _ => nan
  end.

(** Modelled from the spec: [floorToDecimal] of [./utils], which is not among
    the sources; "round down (floor) to that many decimals". *)
Definition floorToDecimal (x : number) (decimals : nat) : number :=
  (Math_floor (x * of_Z (10 ^ Z.of_nat decimals)) / of_Z (10 ^ Z.of_nat decimals))%float.

(** The [for (price of orderbook.getL2(1000, asks))] loop; it returns
    [(spentCost, avgPrice)]. The loop variable [price] is bound to the whole
    level, and [sizeAtLevel] is declared but never assigned. *)
Fixpoint fillLoop (levels : list Level) (cost : number) (asks : bool)
    (spentCost avgPrice : number) : number * number :=
  match levels with
  | [] => (spentCost, avgPrice)
  | level :: rest =>
      let price := Obj level in
      let sizeAtLevel := Undefined in
      let costAtLevel :=
        ((if negb asks then 1 else ToNumber price) * ToNumber sizeAtLevel)%float in
      if gt (spentCost + costAtLevel)%float cost
      then (cost, (avgPrice + (cost - spentCost) * ToNumber price)%float)
      else fillLoop rest cost asks
             (spentCost + costAtLevel)%float
             (avgPrice + costAtLevel * ToNumber price)%float
  end.

Definition getExpectedFillPrice (orderbook : Orderbook) (cost : number) (asks : bool)
    (tickSizeDecimals : option nat) : number :=
  let '(spentCost, avgPrice) := fillLoop (getL2 orderbook 1000 asks) cost asks 0 0 in
  let totalAvgPrice := (avgPrice / Math_min cost spentCost)%float in
  match tickSizeDecimals with
  | Some d => if negb (Nat.eqb d 0) then floorToDecimal totalAvgPrice d else totalAvgPrice
  | None => totalAvgPrice
  end.

(** The walk as section 4.4 of the specification words it: each level
    contributes its price and its size. *)
Fixpoint specWalk (levels : list Level) (targetNotional : number) (asks : bool)
    (spentCost weightedPriceSum : number) : number * number :=
  match levels with
  | [] => (spentCost, weightedPriceSum)
  | level :: rest =>
      let costAtLevel :=
        if asks then (price level * quantity level)%float else quantity level in
      if gt (spentCost + costAtLevel)%float targetNotional
      then (targetNotional,
            (weightedPriceSum + (targetNotional - spentCost) * price level)%float)
      else specWalk rest targetNotional asks
             (spentCost + costAtLevel)%float
             (weightedPriceSum + costAtLevel * price level)%float
  end.

Definition specExpectedFillPrice (levels : list Level) (targetNotional : number)
    (asks : bool) : number :=
  let '(spentCost, weightedPriceSum) := specWalk levels targetNotional asks 0 0 in
  (weightedPriceSum / Math_min targetNotional spentCost)%float.

(** ** Keys, markets and the hooks that read the book *)

(** A [PublicKey], identified with its base-58 text. *)
Record PublicKey := { toBase58 : string }.

Definition equals (a b : PublicKey) : bool := String.eqb (toBase58 a) (toBase58 b).

#[export] Instance PublicKey_truthy : Truthy PublicKey := fun _ => true.

(** The [Market] object of the exchange library: its addresses and the
    decimal counts behind [baseSplSizeToNumber] and [quoteSplSizeToNumber]. *)
Record Market := {
  address : PublicKey;
  baseMintAddress : PublicKey;
  quoteMintAddress : PublicKey;
  baseDecimals : nat;
  quoteDecimals : nat
}.

#[export] Instance Market_truthy : Truthy Market := fun _ => true.

(** The value [useOrderbook] returns first: rows [[price, quantity]]. *)
Record L2Book := { bids : list (number * number); asks : list (number * number) }.

Definition useOrderbook (orderbook : option Orderbook) (market : option Market)
    (depth : nat) : L2Book * bool :=
  let bids :=
    match orderbook, market with
    | Some ob, Some _ => map (fun p => (price p, quantity p)) (getL2 ob depth false)
    | _, _ => []
    end in
  let asks :=
    match orderbook, market with
    | Some ob, Some _ => map (fun p => (price p, quantity p)) (getL2 ob depth true)
    | _, _ => []
    end in
  ({| bids := bids; asks := asks |}, truthy bids || truthy asks).

Inductive Side := buy | sell.

(** A fill of the event queue, with the fields the hooks read. *)
Record Fill := {
  maker : bool;
  side : Side;
  fillPrice : number;
  fillOpenOrders : PublicKey
}.

(** [useTrades]: the maker fills, each seen from the taker's side. *)
Definition useTrades (trades : option (list Fill)) : option (list Fill) :=
  match trades with
  | None => None
  | Some ts =>
      Some (map (fun trade =>
                   {| maker := maker trade;
                      side := match side trade with buy => sell | sell => buy end;
                      fillPrice := fillPrice trade;
                      fillOpenOrders := fillOpenOrders trade |})
                (filter (fun t => maker t = true) ts))
  end.

(** The body of the effect of [useMarkPrice]: the value handed to
    [setMarkPrice]. [bb], [ba] and [last] are [false] ([None]) or a number. *)
Definition markPrice (orderbook : L2Book) (trades : option (list Fill)) : option number :=
  let bb := match bids orderbook with [] => None | row :: _ => Some (fst row) end in
  let ba := match asks orderbook with [] => None | row :: _ => Some (fst row) end in
  let last :=
    match trades with
    | Some (t :: _) => Some (fillPrice t)
    | _ => None
    end in
  match bb, ba with
  | Some b, Some a =>
      if truthy b && truthy a then
        match last with
        | Some l =>
            if truthy l
            then sort (fun x y => x - y)%float [b; a; l] !! 1%nat
            else Some ((b + a) / 2)%float
        | None => Some ((b + a) / 2)%float
        end
      else None
  | _, _ => None
  end.

(** [useMarkPrice]: the state starts at [null] and holds the effect's value
    once the effect has run. *)
Definition useMarkPrice (effectRan : bool) (orderbook : L2Book)
    (trades : option (list Fill)) : option number :=
  if effectRan then markPrice orderbook trades else None.

(** The median as the specification words it: "the middle value after
    sorting", here by the order of the values. *)
Definition median3 (a b c : number) : number :=
  if PrimFloat.leb a b then
    if PrimFloat.leb b c then b else if PrimFloat.leb a c then c else a
  else
    if PrimFloat.leb a c then a else if PrimFloat.leb b c then c else b.

(** ** Market list and routes *)

Module MarketInfo.
Record t := {
  name : string;
  address : PublicKey;
  programId : PublicKey;
  deprecated : bool;
  baseLabel : option string;
  quoteLabel : option string
}.
End MarketInfo.

Module CustomMarketInfo.
Record t := {
  address : string;
  name : string;
  programId : string;
  quoteLabel : option string;
  baseLabel : option string
}.
End CustomMarketInfo.

Definition WRAPPED_SOL_MINT : PublicKey :=
  {| toBase58 := "So11111111111111111111111111111111111111112" |}.

Definition mint1 : PublicKey := {| toBase58 := "CZen4jVxdisrutQo2FeNY916uoeuEtLwfqSqJk9HHdEF" |}.
Definition mint2 : PublicKey := {| toBase58 := "Cq47UeAkQcZmnaLPFpbHF8ZLjrPu4PhjshtsoKifMmMU" |}.

Definition marketAddress : PublicKey :=
  {| toBase58 := "BT7i1viSJSQBHQ1jWVs7VWPBrY3gT5PLbYm9f62F7ZhR" |}.

Definition TOKEN_MINTS : list (string * PublicKey) :=
  [("Mint 1", mint1); ("Mint 2", mint2)].

(** [a || b] on values that may be absent. *)
Definition or_else {A} `{Truthy A} (a b : option A) : option A :=
  if truthy a then a else b.

(** A value [JSON.parse] returns. *)
#[warnings="-register-all"]
Inductive JSONValue :=
  | JNull
  | JBool (b : bool)
  | JNumber (n : number)
  | JString (s : string)
  | JArray (items : list JSONValue)
  | JObject (members : list (string * JSONValue)).

#[export] Instance JSONValue_truthy : Truthy JSONValue :=
  fun v =>
    match v with
    | JNull => false
    | JBool b => b
    | JNumber n => truthy n
    | JString s => truthy s
    | JArray _ => true
    | JObject _ => true
    end.

Inductive RouteTarget :=
  | Redirect (to : string)
  | Component (page : string).

Record Route := { exact : bool; path : string; target : RouteTarget }.

Section Markets.

(** The program id the exchange library exports. *)
Variable DEX_ID : PublicKey.

(** [JSON.parse] on a stored preference: the value the text encodes, or
    [None] when it throws. *)
Variable JSON_parse : string -> option JSONValue.

(** The text of a number, as a template literal prints it. *)
Variable Number_toString : number -> string.

(** [new PublicKey(text)] throws unless the text is a well-formed key. *)
Variable validPublicKey : string -> bool.

(** [new PublicKey(text)]; [None] when it throws. A key built from a
    well-formed text prints as that text. *)
Definition newPublicKey (text : string) : option PublicKey :=
  if validPublicKey text then Some {| toBase58 := text |} else None.

(** ToString on a parsed value, as a template literal applies it; [None]
    is a TypeError. An array joins its elements with commas, [null]
    counting as the empty text. An object prints through
    [Object.prototype.toString], unless it has a member [toString] of its
    own: parsed data is never callable, and [valueOf] does not give a
    primitive. *)
Fixpoint ToString (v : JSONValue) : option string :=
  match v with
  | JNull => Some "null"
  | JBool b => Some (if b then "true" else "false")
  | JNumber n => Some (Number_toString n)
  | JString s => Some s
  | JArray items =>
      (fix join (items : list JSONValue) : option string :=
         match items with
         | [] => Some ""
         | item :: rest =>
             first ← match item with JNull => Some "" | _ => ToString item end;
             match rest with
             | [] => Some first
             | _ => others ← join rest; Some (first +:+ "," +:+ others)
             end
         end) items
  | JObject members =>
      if existsb (String.eqb "toString") (map fst members) then None
      else Some "[object Object]"
  end.

Definition USE_MARKETS : list MarketInfo.t :=
  [ {| MarketInfo.name := "Test";
       MarketInfo.address := marketAddress;
       MarketInfo.programId := DEX_ID;
       MarketInfo.deprecated := false;
       MarketInfo.baseLabel := None;
       MarketInfo.quoteLabel := None |} ].

Definition DEFAULT_MARKET : option MarketInfo.t :=
  List.find
    (fun m => String.eqb (MarketInfo.name m) "SRM/USDT" && negb (MarketInfo.deprecated m))
    USE_MARKETS.

(** One custom market as [getMarketInfos] enters it; [None] when one of
    its two keys is refused. *)
Definition customMarketInfo (m : CustomMarketInfo.t) : option MarketInfo.t :=
  address ← newPublicKey (CustomMarketInfo.address m);
  programId ← newPublicKey (CustomMarketInfo.programId m);
  Some {| MarketInfo.name := CustomMarketInfo.name m;
          MarketInfo.address := address;
          MarketInfo.programId := programId;
          MarketInfo.deprecated := false;
          MarketInfo.baseLabel := CustomMarketInfo.baseLabel m;
          MarketInfo.quoteLabel := CustomMarketInfo.quoteLabel m |}.

(** [getMarketInfos(customMarkets)]; [None] when [new PublicKey] throws on
    a custom market. *)
Definition getMarketInfos (customMarkets : list CustomMarketInfo.t)
    : option (list MarketInfo.t) :=
  customMarketsInfo ← mapM customMarketInfo customMarkets;
  Some (customMarketsInfo ++ USE_MARKETS).

(** [getTradePageUrl(marketAddress?)] reading [localStorage]; [None] when
    it throws: in [JSON.parse], or in the template literal on the parsed
    value. *)
Definition getTradePageUrl (localStorage : gmap string string)
    (marketAddress : option string) : option string :=
  if negb (truthy marketAddress) then
    let saved := localStorage !! "marketAddress" in
    parsed ← (if truthy saved then Some <$> (saved ≫= JSON_parse)
              else Some (JString <$> marketAddress));
    let marketAddress :=
      or_else
        (or_else parsed
           ((fun m => JString (toBase58 (MarketInfo.address m))) <$> DEFAULT_MARKET))
        (Some (JString "")) in
    text ← match marketAddress with
           | Some value => ToString value
           | None => Some "undefined"
           end;
    Some ("/market/" +:+ text)
  else Some ("/market/" +:+ default "undefined" marketAddress).

(** The route table of [Routes]; the root route redirects to
    [getTradePageUrl()]. *)
Definition Routes (localStorage : gmap string string) : option (list Route) :=
  url ← getTradePageUrl localStorage None;
  Some [ {| exact := true; path := "/"; target := Redirect url |};
         {| exact := true; path := "/market/:marketAddress"; target := Component "TradePage" |};
         {| exact := true; path := "/orders"; target := Component "OpenOrdersPage" |};
         {| exact := true; path := "/balances"; target := Component "BalancesPage" |} ].

(** The fields [getMarketDetails] adds to the market context. *)
Record FullMarketInfo := {
  marketName : option string;
  baseCurrency : option string;
  quoteCurrency : option string;
  marketInfo : option MarketInfo.t
}.

(** [getMarketDetails(market, customMarkets)]; [None] when
    [getMarketInfos] throws. *)
Definition getMarketDetails (market : option Market)
    (customMarkets : list CustomMarketInfo.t) : option FullMarketInfo :=
  match market with
  | None =>
      Some {| marketName := None; baseCurrency := None; quoteCurrency := None;
              marketInfo := None |}
  | Some market =>
      marketInfos ← getMarketInfos customMarkets;
      let marketInfo :=
        List.find (fun otherMarket => equals (MarketInfo.address otherMarket) (address market))
                  marketInfos in
      let currency mint label :=
        or_else
          (or_else
             (fst <$> List.find (fun token => equals (snd token) mint) TOKEN_MINTS)
             (if truthy label then (fun l => l +:+ "*") <$> label else label))
          (Some "UNKNOWN") in
      Some {| marketName := MarketInfo.name <$> marketInfo;
              baseCurrency :=
                currency (baseMintAddress market) (marketInfo ≫= MarketInfo.baseLabel);
              quoteCurrency :=
                currency (quoteMintAddress market) (marketInfo ≫= MarketInfo.quoteLabel);
              marketInfo := marketInfo |}
  end.

End Markets.

(** ** Accounts and balances *)

(** An on-chain account as the connection returns it. *)
Record AccountInfo := { lamports : Z; data : list Byte.byte }.

#[export] Instance AccountInfo_truthy : Truthy AccountInfo := fun _ => true.

Record TokenAccount := {
  pubkey : PublicKey;
  account : option AccountInfo;
  effectiveMint : PublicKey
}.

#[export] Instance TokenAccount_truthy : Truthy TokenAccount := fun _ => true.

(** A [BN] is an object, hence truthy whatever its value. *)
Definition BN := Z.

#[export] Instance BN_truthy : Truthy BN := fun _ => true.

(** An open-orders account; a balance field is a [BN] when present. *)
Record OpenOrders := {
  ooAddress : PublicKey;
  ooMarket : PublicKey;
  baseTokenFree : option BN;
  baseTokenTotal : option BN;
  quoteTokenFree : option BN;
  quoteTokenTotal : option BN
}.

#[export] Instance OpenOrders_truthy : Truthy OpenOrders := fun _ => true.

(** [new BN(bytes, 10, 'le')]: the bytes read as a little-endian integer. *)
Fixpoint BN_le (bytes : list Byte.byte) : BN :=
  match bytes with
  | [] => 0
  | b :: rest => Z.of_N (Byte.to_N b) + 256 * BN_le rest
  end.

(** [new BN(number)] on a JavaScript number holding an integer: bn.js
    asserts that its magnitude is below 2^53, and throws otherwise. *)
Definition BN_of_number (n : Z) : option BN :=
  if Z.abs n <? 2 ^ 53 then Some n else None.

(** [buffer.slice(from, to)]. *)
Definition slice {A} (from to : nat) (l : list A) : list A :=
  take (to - from) (drop from l).

(** A row of the balances table. *)
Record Balances := {
  key : string;
  coin : string;
  wallet : option number;
  orders : option number;
  unsettled : option number;
  openOrders : option OpenOrders;
  balMarket : option Market
}.

(** What the hooks called by [useBalances] read: the market context, the
    stored preferences and the cached results of the fetchers. *)
Record Hooks := {
  market : option Market;
  customMarkets : list CustomMarketInfo.t;
  tokenAccounts : option (list TokenAccount);
  selectedTokenAccounts : gmap string string;
  useAccountInfo : option PublicKey -> option AccountInfo * bool;
  openOrdersAccounts : option (list OpenOrders)
}.

Record MintInfo := { decimals : nat }.

(** What [parseTokenAccountData] decodes. *)
Record ParsedAccount := { paMint : PublicKey; paOwner : PublicKey; paAmount : Z }.

(** Modelled from the spec: [getTokenMultiplierFromDecimals] of [./utils],
    which is not among the sources; the scaling divisor [10^decimals]. *)
Definition getTokenMultiplierFromDecimals (decimals : nat) : BN := 10 ^ Z.of_nat decimals.

(** Modelled from the spec: [divideBnToNumber] of [./utils], which is not
    among the sources; "integer or arbitrary-precision arithmetic until the
    final scaling division": one binary64 division of the two integers. *)
Definition scalingDivision (numerator denominator : BN) : number :=
  (of_Z numerator / of_Z denominator)%float.

Section Balances.

Variable DEX_ID : PublicKey.
Variable validPublicKey : string -> bool.

(** The conversion the exchange library and [./utils] name
    [divideBnToNumber]: a raw amount over its multiplier, as a number. *)
Variable divideBnToNumber : BN -> BN -> number.

Definition baseSplSizeToNumber (market : Market) (size : BN) : number :=
  divideBnToNumber size (10 ^ Z.of_nat (baseDecimals market)).

Definition quoteSplSizeToNumber (market : Market) (size : BN) : number :=
  divideBnToNumber size (10 ^ Z.of_nat (quoteDecimals market)).

(** [useMarket]: the context [MarketProvider] hands down, which renders
    [getMarketInfos(customMarkets)] and then
    [getMarketDetails(market, customMarkets)]; [None] when the provider
    throws, and with it every hook below. *)
Definition useMarket (h : Hooks) : option FullMarketInfo :=
  _ ← getMarketInfos DEX_ID validPublicKey (customMarkets h);
  getMarketDetails DEX_ID validPublicKey (market h) (customMarkets h).

Definition useSelectedOpenOrdersAccount (h : Hooks) : option OpenOrders :=
  match openOrdersAccounts h with
  | None => None
  | Some accounts => accounts !! 0%nat
  end.

Definition getSelectedTokenAccountForMint (accounts : option (list TokenAccount))
    (mint : option PublicKey) (selectedPubKey : option string) : option TokenAccount :=
  match accounts, mint with
  | Some accounts, Some mint =>
      let filtered :=
        List.filter
          (fun a =>
             equals mint (effectiveMint a)
             && (negb (truthy selectedPubKey)
                 || match selectedPubKey with
                    | Some s => String.eqb s (toBase58 (pubkey a))
                    | None => false
                    end))
          accounts in
      filtered !! 0%nat
  | _, _ => None
  end.

Definition useSelectedQuoteCurrencyAccount (h : Hooks) : option TokenAccount :=
  let mintAddress := quoteMintAddress <$> market h in
  getSelectedTokenAccountForMint (tokenAccounts h) mintAddress
    (mintAddress ≫= fun m => selectedTokenAccounts h !! toBase58 m).

Definition useSelectedBaseCurrencyAccount (h : Hooks) : option TokenAccount :=
  let mintAddress := baseMintAddress <$> market h in
  getSelectedTokenAccountForMint (tokenAccounts h) mintAddress
    (mintAddress ≫= fun m => selectedTokenAccounts h !! toBase58 m).

Definition useSelectedQuoteCurrencyBalances (h : Hooks) : option number :=
  let quoteCurrencyAccount := useSelectedQuoteCurrencyAccount h in
  let '(accountInfo, loaded) := useAccountInfo h (pubkey <$> quoteCurrencyAccount) in
  match market h, quoteCurrencyAccount, loaded, accountInfo with
  | Some market, Some _, true, Some accountInfo =>
      if equals (quoteMintAddress market) WRAPPED_SOL_MINT
      then Some (of_Z (lamports accountInfo) / 1e9)%float
      else Some (quoteSplSizeToNumber market (BN_le (slice 64 72 (data accountInfo))))
  | _, _, _, _ => None
  end.

Definition useSelectedBaseCurrencyBalances (h : Hooks) : option number :=
  let baseCurrencyAccount := useSelectedBaseCurrencyAccount h in
  let '(accountInfo, loaded) := useAccountInfo h (pubkey <$> baseCurrencyAccount) in
  match market h, baseCurrencyAccount, loaded, accountInfo with
  | Some market, Some _, true, Some accountInfo =>
      if equals (baseMintAddress market) WRAPPED_SOL_MINT
      then Some (of_Z (lamports accountInfo) / 1e9)%float
      else Some (baseSplSizeToNumber market (BN_le (slice 64 72 (data accountInfo))))
  | _, _, _, _ => None
  end.

Definition useBalances (h : Hooks) : option (list Balances) :=
  details ← useMarket h;
  let baseCurrencyBalances := useSelectedBaseCurrencyBalances h in
  let quoteCurrencyBalances := useSelectedQuoteCurrencyBalances h in
  let openOrders := useSelectedOpenOrdersAccount h in
  let baseExists :=
    truthy openOrders && truthy (openOrders ≫= baseTokenTotal)
    && truthy (openOrders ≫= baseTokenFree) in
  let quoteExists :=
    truthy openOrders && truthy (openOrders ≫= quoteTokenTotal)
    && truthy (openOrders ≫= quoteTokenFree) in
  Some
  match baseCurrency details, quoteCurrency details with
  | Some baseCurrency, Some quoteCurrency =>
      if String.eqb baseCurrency "UNKNOWN" || String.eqb quoteCurrency "UNKNOWN"
         || negb (truthy baseCurrency) || negb (truthy quoteCurrency)
      then []
      else
        [ {| balMarket := market h;
             key := baseCurrency +:+ quoteCurrency +:+ baseCurrency;
             coin := baseCurrency;
             wallet := baseCurrencyBalances;
             orders :=
               if baseExists && truthy (market h) && truthy openOrders then
                 m ← market h; oo ← openOrders;
                 total ← baseTokenTotal oo; free ← baseTokenFree oo;
                 Some (baseSplSizeToNumber m (total - free))
               else None;
             openOrders := openOrders;
             unsettled :=
               if baseExists && truthy (market h) && truthy openOrders then
                 m ← market h; oo ← openOrders; free ← baseTokenFree oo;
                 Some (baseSplSizeToNumber m free)
               else None |};
          {| balMarket := market h;
             key := quoteCurrency +:+ baseCurrency +:+ quoteCurrency;
             coin := quoteCurrency;
             wallet := quoteCurrencyBalances;
             openOrders := openOrders;
             orders :=
               if quoteExists && truthy (market h) && truthy openOrders then
                 m ← market h; oo ← openOrders;
                 total ← quoteTokenTotal oo; free ← quoteTokenFree oo;
                 Some (quoteSplSizeToNumber m (total - free))
               else None;
             unsettled :=
               if quoteExists && truthy (market h) && truthy openOrders then
                 m ← market h; oo ← openOrders; free ← quoteTokenFree oo;
                 Some (quoteSplSizeToNumber m free)
               else None |} ]
  | _, _ => []
  end.

End Balances.

(** ** The fetchers and the network *)

Record Connection := { endpoint : string }.

Record Wallet := { publicKey : PublicKey }.

#[export] Instance Wallet_truthy : Truthy Wallet := fun _ => true.

(** The requests the fetchers send to the data source. *)
Inductive NetworkCall :=
  | findOpenOrdersAccountForOwner (market : Market) (connection : Connection) (owner : PublicKey)
  | getTokenAccountInfo (connection : Connection) (owner : PublicKey).

(** What each request answers with when it succeeds. *)
Definition Response (call : NetworkCall) : Type :=
  match call with
  | findOpenOrdersAccountForOwner _ _ _ => list OpenOrders
  | getTokenAccountInfo _ _ => list TokenAccount
  end.

(** An [async] function body: it settles, or awaits a request and goes on
    with the answer; a failed request is an [inr] carrying the error. *)
Inductive Async (A : Type) : Type :=
  | Resolved (a : A)
  | Rejected (error : string)
  | Await (call : NetworkCall) (k : Response call + string -> Async A).

Arguments Resolved {A} a.
Arguments Rejected {A} error.
Arguments Await {A} call k.

(** How a promise settles. *)
Inductive Settled (A : Type) : Type :=
  | Fulfilled (a : A)
  | Failed (error : string).

Arguments Fulfilled {A} a.
Arguments Failed {A} error.

(** Running a body against a data source: the requests sent, in order, and
    the way the promise settles. *)
Fixpoint run {A} (source : forall call, Response call + string) (p : Async A)
    : list NetworkCall * Settled A :=
  match p with
  | Resolved a => ([], Fulfilled a)
  | Rejected e => ([], Failed e)
  | Await call k =>
      let '(calls, r) := run source (k (source call)) in
      (call :: calls, r)
  end.

(** The fetcher of [useOpenOrdersAccounts]. *)
Definition getOpenOrdersAccounts (connected : bool) (wallet : option Wallet)
    (market : option Market) (connection : Connection) : Async (option (list OpenOrders)) :=
  if negb connected || negb (truthy wallet) then Resolved None
  else if negb (truthy market) then Resolved None
  else
    match wallet, market with
    | Some wallet, Some market =>
        Await (findOpenOrdersAccountForOwner market connection (publicKey wallet))
              (fun r => match r with
                        | inl accounts => Resolved (Some accounts)
                        | inr e => Rejected e
                        end)
    | _, _ => Resolved None
    end.

(** The fetcher of [useTokenAccounts]. *)
Definition getTokenAccounts (connected : bool) (wallet : option Wallet)
    (connection : Connection) : Async (option (list TokenAccount)) :=
  if negb connected || negb (truthy wallet) then Resolved None
  else
    match wallet with
    | Some wallet =>
        Await (getTokenAccountInfo connection (publicKey wallet))
              (fun r => match r with
                        | inl accounts => Resolved (Some accounts)
                        | inr e => Rejected e
                        end)
    | None => Resolved None
    end.

(** ** Balances over all markets *)

(** [balances[mint] += amount] on an object whose keys keep their insertion
    order; a missing key is first set to [0]. *)
Fixpoint addBalance (mint : string) (amount : number) (balances : list (string * number))
    : list (string * number) :=
  match balances with
  | [] => [(mint, (0 + amount)%float)]
  | (k, v) :: rest =>
      if String.eqb k mint then (k, (v + amount)%float) :: rest
      else (k, v) :: addBalance mint amount rest
  end.

(** An entry of [useAllMarkets]. *)
Record LoadedMarket := { lmMarket : Market; lmMarketName : string; lmProgramId : PublicKey }.

(** An entry of [useAllOpenOrdersBalances]. *)
Record OpenOrdersBalance := { obMarket : PublicKey; free : number; total : number }.

(** [if (!(mint in balances)) balances[mint] = []]. *)
Fixpoint ensureKey (mint : string) (balances : list (string * list OpenOrdersBalance))
    : list (string * list OpenOrdersBalance) :=
  match balances with
  | [] => [(mint, [])]
  | (k, v) :: rest =>
      if String.eqb k mint then balances else (k, v) :: ensureKey mint rest
  end.

(** [balances[mint].push(entry)] on a key that exists. *)
Fixpoint pushBalance (mint : string) (entry : OpenOrdersBalance)
    (balances : list (string * list OpenOrdersBalance))
    : list (string * list OpenOrdersBalance) :=
  match balances with
  | [] => []
  | (k, v) :: rest =>
      if String.eqb k mint then (k, v ++ [entry]) :: rest
      else (k, v) :: pushBalance mint entry rest
  end.

(** A [for ... of] loop whose body may throw: the state after the last
    item, or [None] from the first throw on. *)
Fixpoint forOf {A S} (body : S -> A -> option S) (state : S) (items : list A) : option S :=
  match items with
  | [] => Some state
  | item :: rest => state' ← body state item; forOf body state' rest
  end.

Section AllMarkets.

Variable divideBnToNumber : BN -> BN -> number.

(** The decoder of [./tokens]. *)
Variable parseTokenAccountData : list Byte.byte -> ParsedAccount.

(** One turn of the loop of [useWalletBalancesForAllMarkets]; [None] when
    [new BN(parsedAccount.amount)] throws. *)
Definition walletBalanceStep (mintInfos : option (gmap string MintInfo))
    (balances : list (string * number)) (tokenAccount : TokenAccount)
    : option (list (string * number)) :=
  match account tokenAccount with
  | None => Some balances
  | Some info =>
      let parsedAccount :=
        if equals (effectiveMint tokenAccount) WRAPPED_SOL_MINT
        then {| paMint := WRAPPED_SOL_MINT; paOwner := pubkey tokenAccount;
                paAmount := lamports info |}
        else parseTokenAccountData (data info) in
      let mintInfo := mintInfos ≫= fun infos => infos !! toBase58 (paMint parsedAccount) in
      amount ← BN_of_number (paAmount parsedAccount);
      let additionalAmount :=
        divideBnToNumber amount
          (getTokenMultiplierFromDecimals (default 0%nat (decimals <$> mintInfo))) in
      Some (addBalance (toBase58 (paMint parsedAccount)) additionalAmount balances)
  end.

(** [useWalletBalancesForAllMarkets]; [None] when the loop throws. *)
Definition useWalletBalancesForAllMarkets (tokenAccounts : option (list TokenAccount))
    (connected : bool) (mintInfos : option (gmap string MintInfo))
    (mintInfosConnected : bool) : option (list (string * number)) :=
  if negb connected || negb mintInfosConnected then Some []
  else forOf (walletBalanceStep mintInfos) [] (default [] tokenAccounts).

(** One turn of the loop of [useAllOpenOrdersBalances]; a market that is
    not loaded gives the key ["undefined"]. *)
Definition openOrdersBalanceStep (marketsByAddress : gmap string LoadedMarket)
    (mintInfos : option (gmap string MintInfo))
    (openOrdersBalances : list (string * list OpenOrdersBalance)) (account : OpenOrders)
    : list (string * list OpenOrdersBalance) :=
  let marketInfo := marketsByAddress !! toBase58 (ooMarket account) in
  let baseMint :=
    default "undefined" ((fun m => toBase58 (baseMintAddress (lmMarket m))) <$> marketInfo) in
  let quoteMint :=
    default "undefined" ((fun m => toBase58 (quoteMintAddress (lmMarket m))) <$> marketInfo) in
  let openOrdersBalances := ensureKey baseMint openOrdersBalances in
  let openOrdersBalances := ensureKey quoteMint openOrdersBalances in
  let baseMintInfo := mintInfos ≫= fun infos => infos !! baseMint in
  let baseFree :=
    divideBnToNumber (default 0 (baseTokenFree account))
      (getTokenMultiplierFromDecimals (default 0%nat (decimals <$> baseMintInfo))) in
  let baseTotal :=
    divideBnToNumber (default 0 (baseTokenTotal account))
      (getTokenMultiplierFromDecimals (default 0%nat (decimals <$> baseMintInfo))) in
  let quoteMintInfo := mintInfos ≫= fun infos => infos !! quoteMint in
  let quoteFree :=
    divideBnToNumber (default 0 (quoteTokenFree account))
      (getTokenMultiplierFromDecimals (default 0%nat (decimals <$> quoteMintInfo))) in
  let quoteTotal :=
    divideBnToNumber (default 0 (quoteTokenTotal account))
      (getTokenMultiplierFromDecimals (default 0%nat (decimals <$> quoteMintInfo))) in
  let openOrdersBalances :=
    pushBalance baseMint
      {| obMarket := ooMarket account; free := baseFree; total := baseTotal |}
      openOrdersBalances in
  pushBalance quoteMint
    {| obMarket := ooMarket account; free := quoteFree; total := quoteTotal |}
    openOrdersBalances.

Definition useAllOpenOrdersBalances (openOrdersAccounts : option (list OpenOrders))
    (loadedOpenOrdersAccounts : bool) (mintInfos : option (gmap string MintInfo))
    (mintInfosConnected : bool) (allMarkets : option (list LoadedMarket))
    : list (string * list OpenOrdersBalance) :=
  if negb loadedOpenOrdersAccounts || negb mintInfosConnected then []
  else
    let marketsByAddress : gmap string LoadedMarket :=
      list_to_map
        (reverse (map (fun m => (toBase58 (address (lmMarket m)), m)) (default [] allMarkets))) in
    foldl (openOrdersBalanceStep marketsByAddress mintInfos) [] (default [] openOrdersAccounts).

(** What the loop reads of a token account whose account data is there:
    the native mint and the lamports of a wrapped-SOL account, the decoded
    mint and amount of any other. *)
Definition parsedAccountOf (tokenAccount : TokenAccount) : option ParsedAccount :=
  info ← account tokenAccount;
  Some (if equals (effectiveMint tokenAccount) WRAPPED_SOL_MINT
        then {| paMint := WRAPPED_SOL_MINT; paOwner := pubkey tokenAccount;
                paAmount := lamports info |}
        else parseTokenAccountData (data info)).

(** A token account [new BN] does not throw on: its account data is
    missing, or its raw amount is below 2^53 in magnitude. *)
Definition convertible (tokenAccount : TokenAccount) : bool :=
  match parsedAccountOf tokenAccount with
  | Some parsedAccount => Z.abs (paAmount parsedAccount) <? 2 ^ 53
  | None => true
  end.

(** What one token account adds to the balances: nothing when its account
    data is missing, else its mint and its raw amount converted by one call
    of [divideBnToNumber] over [10^decimals]. *)
Definition contribution (mintInfos : option (gmap string MintInfo))
    (tokenAccount : TokenAccount) : option (string * number) :=
  info ← account tokenAccount;
  let parsedAccount :=
    if equals (effectiveMint tokenAccount) WRAPPED_SOL_MINT
    then {| paMint := WRAPPED_SOL_MINT; paOwner := pubkey tokenAccount;
            paAmount := lamports info |}
    else parseTokenAccountData (data info) in
  let mint := toBase58 (paMint parsedAccount) in
  Some (mint,
        divideBnToNumber (paAmount parsedAccount)
          (10 ^ Z.of_nat
                  (default 0%nat (decimals <$> (mintInfos ≫= fun infos => infos !! mint))))).

(** The binary64 running total of a mint: the converted amounts of its
    accounts added one by one, in account order, starting from 0. *)
Definition runningTotal (mintInfos : option (gmap string MintInfo)) (mint : string)
    (total : option number) (tokenAccount : TokenAccount) : option number :=
  match contribution mintInfos tokenAccount with
  | Some (k, v) => if String.eqb k mint then Some (default 0 total + v)%float else total
  | None => total
  end.

(** The balances with the contribution of one more token account. *)
Definition addContribution (mintInfos : option (gmap string MintInfo))
    (balances : list (string * number)) (tokenAccount : TokenAccount)
    : list (string * number) :=
  match contribution mintInfos tokenAccount with
  | Some (mint, amount) => addBalance mint amount balances
  | None => balances
  end.

End AllMarkets.

(** ** Cache keys: [tuple] of [immutable-tuple] *)

(** A value passed to [tuple]. An object carries the reference it was
    allocated at and its own properties. *)
#[warnings="-register-all"]
Inductive jsval :=
  | VUndefined
  | VNull
  | VBool (b : bool)
  | VNumber (n : number)
  | VString (s : string)
  | VObject (ref : nat) (props : list (string * jsval)).

(** SameValueZero, the equality of [Map] keys: primitives by value, with NaN
    equal to itself and [+0] equal to [-0]; objects by reference. *)
Definition sameValueZero (x y : jsval) : bool :=
  match x, y with
  | VUndefined, VUndefined => true
  | VNull, VNull => true
  | VBool a, VBool b => Bool.eqb a b
  | VNumber a, VNumber b => PrimFloat.eqb a b || (is_nan a && is_nan b)
  | VString a, VString b => String.eqb a b
  | VObject r _, VObject r' _ => Nat.eqb r r'
  | _, _ => false
  end.

(** Deep equality: the same shape and the same primitive leaves, wherever
    the objects were allocated. *)
Fixpoint deepEqual (x y : jsval) : bool :=
  match x, y with
  | VUndefined, VUndefined => true
  | VNull, VNull => true
  | VBool a, VBool b => Bool.eqb a b
  | VNumber a, VNumber b => PrimFloat.eqb a b || (is_nan a && is_nan b)
  | VString a, VString b => String.eqb a b
  | VObject _ ps, VObject _ qs =>
      (fix props (ps qs : list (string * jsval)) : bool :=
         match ps, qs with
         | [], [] => true
         | (k, v) :: ps', (k', v') :: qs' =>
             String.eqb k k' && deepEqual v v' && props ps' qs'
         | _, _ => false
         end) ps qs
  | _, _ => false
  end.

(** Two argument sequences the intern table cannot tell apart. *)
Fixpoint sameItems (xs ys : list jsval) : bool :=
  match xs, ys with
  | [], [] => true
  | x :: xs', y :: ys' => sameValueZero x y && sameItems xs' ys'
  | _, _ => false
  end.

(** The intern table of [immutable-tuple]: the argument sequences seen so
    far, each with the reference of its one [Tuple] object. *)
Record TupleStore := { table : list (list jsval * nat); nextRef : nat }.

Definition emptyStore : TupleStore := {| table := []; nextRef := 0 |}.

(** [tuple(...items)]: the [Tuple] already interned for these items, or a
    freshly allocated one. *)
Definition tuple (items : list jsval) (st : TupleStore) : nat * TupleStore :=
  match List.find (fun e => sameItems (fst e) items) (table st) with
  | Some (_, r) => (r, st)
  | None =>
      (nextRef st, {| table := (items, nextRef st) :: table st; nextRef := S (nextRef st) |})
  end.

(** Modelled from the spec: the lookup of the cache of [./fetch-loop], which
    is not among the sources; section 9 describes the source as "relying on
    object interning" for its "tuple-identity-based cache keys": two keys hit
    the same slot when they are the same [Tuple] object. *)
Definition sameCacheKey (k k' : nat) : bool := Nat.eqb k k'.

(** The stores [tuple] can reach from the empty one. *)
Inductive reachable : TupleStore -> Prop :=
  | reachable_empty : reachable emptyStore
  | reachable_tuple items st : reachable st -> reachable (snd (tuple items st)).

(** ** Notions the properties are stated with *)

(** The intern table after further calls of [tuple], one per argument
    sequence. *)
Definition tuples (calls : list (list jsval)) (st : TupleStore) : TupleStore :=
  foldl (fun st items => snd (tuple items st)) st calls.

(** The price of the most recent trade, when there is one. *)
Definition lastTradePrice (trades : option (list Fill)) : option number :=
  match trades with
  | Some (t :: _) => Some (fillPrice t)
  | _ => None
  end.

(** The middle element of three numbers sorted by [(a, b) => a - b]. *)
Definition sortedMiddle (a b c : number) : option number :=
  sort (fun x y => x - y)%float [a; b; c] !! 1%nat.

(** The currency names of the market context when both are known: the guard
    at the head of [useBalances]. *)
Definition knownCurrencies (DEX_ID : PublicKey) (validPublicKey : string -> bool)
    (h : Hooks) : option (string * string) :=
  details ← useMarket DEX_ID validPublicKey h;
  match baseCurrency details, quoteCurrency details with
  | Some b, Some q =>
      if String.eqb b "UNKNOWN" || String.eqb q "UNKNOWN"
         || negb (truthy b) || negb (truthy q)
      then None else Some (b, q)
  | _, _ => None
  end.

(** The balance an object of balances holds for a mint. *)
Fixpoint balanceOf (mint : string) (balances : list (string * number)) : option number :=
  match balances with
  | [] => None
  | (k, v) :: rest => if String.eqb k mint then Some v else balanceOf mint rest
  end.

(** What SameValueZero can see of a number: its binary64 value, with the two
    zeros merged. *)
Definition numberKey (n : number) : spec_float :=
  match Prim2SF n with
  | S754_zero _ => S754_zero false
  | x => x
  end.

(** What SameValueZero can see of a value. *)
Inductive identity :=
  | IUndefined
  | INull
  | IBool (b : bool)
  | INumber (x : spec_float)
  | IString (s : string)
  | IObject (ref : nat).

Definition identityOf (v : jsval) : identity :=
  match v with
  | VUndefined => IUndefined
  | VNull => INull
  | VBool b => IBool b
  | VNumber n => INumber (numberKey n)
  | VString s => IString s
  | VObject r _ => IObject r
  end.

(** A value with no object in it. *)
Definition primitive (v : jsval) : bool :=
  match v with VObject _ _ => false | _ => true end.

(** Induction on a value and, through its properties, on the values inside. *)
Fixpoint jsval_nested_ind (P : jsval -> Prop)
    (Hu : P VUndefined) (Hn : P VNull) (Hb : forall b, P (VBool b))
    (Hnum : forall n, P (VNumber n)) (Hs : forall s, P (VString s))
    (Ho : forall r ps, List.Forall (fun p => P (snd p)) ps -> P (VObject r ps))
    (v : jsval) {struct v} : P v :=
  match v with
  | VUndefined => Hu
  | VNull => Hn
  | VBool b => Hb b
  | VNumber n => Hnum n
  | VString s => Hs s
  | VObject r ps =>
      Ho r ps
        ((fix props (ps : list (string * jsval)) : List.Forall (fun p => P (snd p)) ps :=
            match ps with
            | [] => List.Forall_nil _
            | p :: ps' =>
                @List.Forall_cons _ (fun p => P (snd p)) p ps'
                  (jsval_nested_ind P Hu Hn Hb Hnum Hs Ho (snd p)) (props ps')
            end) ps)
  end.

(** The invariant of the intern table: no two entries for one sequence of
    identities, no reference used twice, every reference already
    allocated. *)
Definition interned (st : TupleStore) : Prop :=
  List.NoDup (map (fun e => map identityOf (fst e)) (table st))
  /\ List.NoDup (map snd (table st))
  /\ List.Forall (fun e => (snd e < nextRef st)%nat) (table st).

(** An order-preserving reading of the non-NaN binary64 numbers as integers:
    the value in units of the smallest subnormal, the infinities beyond. *)
Definition ord (x : spec_float) : Z :=
  match x with
  | S754_zero _ => 0
  | S754_infinity s => cond_Zopp s (2 ^ (emax - emin))
  | S754_nan => 0
  | S754_finite s m e => cond_Zopp s (Zpos m * 2 ^ (e - emin))
  end.

(** A rounded result that is not a zero and carries the sign [s]. *)
Definition nonzero_signed (s : bool) (x : spec_float) : Prop :=
  (exists m e, x = S754_finite s m e) \/ x = S754_infinity s.

(** ** Fixtures *)

Definition fixtureAsks : list Level :=
  [ {| price := 10; quantity := 1 |}; {| price := 11; quantity := 1 |} ].

Definition bookOf (bidLevels askLevels : list Level) : Orderbook :=
  {| getL2 := fun depth asks => take depth (if asks then askLevels else bidLevels) |}.

Definition fixtureBook : L2Book :=
  {| bids := [(10, 1); (9, 2)]; asks := [(11, 1); (12, 3)] |}%float.

Definition tradeAt (p : number) : Fill :=
  {| maker := true; side := buy; fillPrice := p; fillOpenOrders := marketAddress |}.

Definition decodedMarketA : jsval :=
  VObject 1 [("address", VString "BT7i1viSJSQBHQ1jWVs7VWPBrY3gT5PLbYm9f62F7ZhR");
             ("baseDecimals", VNumber 6)].

(** The same account decoded a second time: equal properties, new object. *)
Definition decodedMarketB : jsval :=
  VObject 2 [("address", VString "BT7i1viSJSQBHQ1jWVs7VWPBrY3gT5PLbYm9f62F7ZhR");
             ("baseDecimals", VNumber 6)].

(** Any key serves as the program id below. *)
Definition fixtureDexId : PublicKey := {| toBase58 := "DEX" |}.

(** For the runs that print no number. *)
Definition noNumberText (_ : number) : string := "".

Definition fixtureMarket : Market :=
  {| address := marketAddress; baseMintAddress := mint1; quoteMintAddress := mint2;
     baseDecimals := 6; quoteDecimals := 2 |}.

Definition fixtureOpenOrders : OpenOrders :=
  {| ooAddress := {| toBase58 := "OpenOrders1" |}; ooMarket := marketAddress;
     baseTokenFree := Some 1500000; baseTokenTotal := Some 4000000;
     quoteTokenFree := Some 0; quoteTokenTotal := Some 1250 |}.

(** A token account whose amount field (bytes 64 to 72) holds 123456789. *)
Definition fixtureTokenData : list Byte.byte :=
  repeat Byte.x00 64
  ++ [Byte.x15; Byte.xcd; Byte.x5b; Byte.x07; Byte.x00; Byte.x00; Byte.x00; Byte.x00].

Definition fixtureBaseAccount : TokenAccount :=
  {| pubkey := {| toBase58 := "BaseAccount" |};
     account := Some {| lamports := 2039280; data := fixtureTokenData |};
     effectiveMint := mint1 |}.

(** A token account of the quote mint whose amount field holds 1250. *)
Definition fixtureQuoteData : list Byte.byte :=
  repeat Byte.x01 64
  ++ [Byte.xe2; Byte.x04; Byte.x00; Byte.x00; Byte.x00; Byte.x00; Byte.x00; Byte.x00]
  ++ repeat Byte.xff 93.

Definition fixtureQuoteAccount : TokenAccount :=
  {| pubkey := {| toBase58 := "QuoteAccount" |};
     account := Some {| lamports := 2039280; data := fixtureQuoteData |};
     effectiveMint := mint2 |}.

(** The account data the connection holds for the two fixture accounts. *)
Definition fixtureAccountInfo (k : option PublicKey) : option AccountInfo * bool :=
  match k with
  | Some k =>
      if equals k (pubkey fixtureBaseAccount) then (account fixtureBaseAccount, true)
      else if equals k (pubkey fixtureQuoteAccount) then (account fixtureQuoteAccount, true)
      else (None, true)
  | None => (None, false)
  end.

Definition fixtureHooks (accounts : option (list OpenOrders)) : Hooks :=
  {| market := Some fixtureMarket;
     customMarkets := [];
     tokenAccounts := Some [fixtureBaseAccount; fixtureQuoteAccount];
     selectedTokenAccounts := ∅;
     useAccountInfo := fixtureAccountInfo;
     openOrdersAccounts := accounts |}.

(** A custom market of two mints that are neither listed nor labelled,
    with the wallet of the fixture. *)
Definition unlistedMarket : Market :=
  {| address := {| toBase58 := "9wFFyRfZBsuAha4YcuxcXLKwMxJR43S7fPfQLusDBzvT" |};
     baseMintAddress := {| toBase58 := "SRMuApVNdxXokk5GT7XD5cUUgXMBCoAz2LHeuAoKWRt" |};
     quoteMintAddress := {| toBase58 := "EPjFWdd5AufqSSqeM2qN1xzybapC8G4wEGGkZwyTDt1v" |};
     baseDecimals := 6; quoteDecimals := 6 |}.

Definition unlistedOpenOrders : OpenOrders :=
  {| ooAddress := {| toBase58 := "OpenOrders2" |}; ooMarket := address unlistedMarket;
     baseTokenFree := Some 1500000; baseTokenTotal := Some 4000000;
     quoteTokenFree := Some 0; quoteTokenTotal := Some 1250 |}.

Definition unlistedHooks : Hooks :=
  {| market := Some unlistedMarket;
     customMarkets :=
       [ {| CustomMarketInfo.address := toBase58 (address unlistedMarket);
            CustomMarketInfo.name := "SRM/USDC";
            CustomMarketInfo.programId := "EUqojwWA2rd19FZrzeBncJsm38Jm1hEhE3zsmX3bRc2o";
            CustomMarketInfo.quoteLabel := None;
            CustomMarketInfo.baseLabel := None |} ];
     tokenAccounts := Some [fixtureBaseAccount; fixtureQuoteAccount];
     selectedTokenAccounts := ∅;
     useAccountInfo := fixtureAccountInfo;
     openOrdersAccounts := Some [unlistedOpenOrders] |}.

(** A check of key texts for the concrete runs: 32 to 44 characters of the
    base-58 alphabet. *)
Definition base58Character (c : Ascii.ascii) : bool :=
  let n := Ascii.nat_of_ascii c in
  ((49 <=? n) && (n <=? 57)
   || (65 <=? n) && (n <=? 90) && negb (n =? 73) && negb (n =? 79)
   || (97 <=? n) && (n <=? 122) && negb (n =? 108))%nat.

Definition fixtureValidKey (text : string) : bool :=
  forallb base58Character (String.list_ascii_of_string text)
  && (32 <=? String.length text)%nat && (String.length text <=? 44)%nat.

Definition fixtureConnection : Connection := {| endpoint := "https://api.devnet.solana.com" |}.

(** The native balance of a wallet and a wrapped-SOL account it owns: 0.1
    and 0.2 SOL. *)
Definition nativeAccount (owner : string) (amount : Z) : TokenAccount :=
  {| pubkey := {| toBase58 := owner |};
     account := Some {| lamports := amount; data := [] |};
     effectiveMint := WRAPPED_SOL_MINT |}.

Definition solMintInfos : gmap string MintInfo :=
  {[ toBase58 WRAPPED_SOL_MINT := {| decimals := 9 |} ]}.

Definition fixtureMintInfos : gmap string MintInfo :=
  {[ toBase58 mint1 := {| decimals := 6 |}; toBase58 mint2 := {| decimals := 2 |} ]}.

(** A decoder for runs that only meet native accounts. *)
Definition noDecoder (_ : list Byte.byte) : ParsedAccount :=
  {| paMint := WRAPPED_SOL_MINT; paOwner := WRAPPED_SOL_MINT; paAmount := 0 |}.

(** ** The market list, the market provider and the remaining fetchers *)

(** [s.includes(sub)]: [sub] occurs somewhere in [s]. *)
Fixpoint includes (s sub : string) : bool :=
  String.prefix sub s
  || match s with
     | EmptyString => false
     | String _ s' => includes s' sub
     end.

(** [useMarketsList], reading the environment variable
    [REACT_APP_EXCLUDE_MARKETS]. *)
Definition useMarketsList (DEX_ID : PublicKey) (REACT_APP_EXCLUDE_MARKETS : option string)
    : list MarketInfo.t :=
  List.filter
    (fun m =>
       negb (MarketInfo.deprecated m)
       && negb (match REACT_APP_EXCLUDE_MARKETS with
                | Some excluded => includes excluded (MarketInfo.name m)
                | None => false
                end))
    (USE_MARKETS DEX_ID).

(** What the second effect of [MarketProvider] does. *)
Inductive ProviderAction :=
  | KeepMarket
  | NotifySelectMarket
  | LoadMarket (address : PublicKey).

Section MarketProvider.

Variable DEX_ID : PublicKey.

(** [new PublicKey(text)] throws unless the text is a well-formed key. *)
Variable validPublicKey : string -> bool.

(** [marketAddress && new PublicKey(marketAddress)]; the outer [None] is the
    exception of the constructor, the inner one a falsy [marketAddress]. *)
Definition providerAddress (marketAddress : option string) : option (option PublicKey) :=
  match marketAddress with
  | Some text =>
      if truthy text then Some <$> newPublicKey validPublicKey text else Some None
  | None => Some None
  end.

(** [address && marketInfos.find(...)] in [MarketProvider]; [None] when
    the render throws before: in [new PublicKey(marketAddress)] or in
    [getMarketInfos(customMarkets)]. *)
Definition providerMarketInfo (marketAddress : option string)
    (customMarkets : list CustomMarketInfo.t) : option (option MarketInfo.t) :=
  address ← providerAddress marketAddress;
  marketInfos ← getMarketInfos DEX_ID validPublicKey customMarkets;
  Some (address ≫= fun address =>
          List.find (fun market => equals (MarketInfo.address market) address)
                    marketInfos).

(** The first effect of [MarketProvider]: the address it hands to
    [setMarketAddress], if it does. *)
Definition switchFromDeprecated (marketAddress : option string)
    (customMarkets : list CustomMarketInfo.t) : option (option string) :=
  marketInfo ← providerMarketInfo marketAddress customMarkets;
  Some (match marketInfo with
        | Some info =>
            if MarketInfo.deprecated info
            then (fun m => toBase58 (MarketInfo.address m)) <$> DEFAULT_MARKET DEX_ID
            else None
        | None => None
        end).

(** The second effect of [MarketProvider], run with the market the state
    holds. *)
Definition loadMarketEffect (market : option Market) (marketAddress : option string)
    (customMarkets : list CustomMarketInfo.t) : option ProviderAction :=
  marketInfo ← providerMarketInfo marketAddress customMarkets;
  Some (match market, marketInfo with
        | Some m, Some info =>
            if equals (address m) (MarketInfo.address info) then KeepMarket
            else LoadMarket (MarketInfo.address info)
        | None, Some info => LoadMarket (MarketInfo.address info)
        | _, None => NotifySelectMarket
        end).

End MarketProvider.

(** A fee discount key as the exchange library lists them. *)
Record FeeDiscountKey := {
  fdPubkey : PublicKey;
  feeTier : nat;
  fdBalance : number;
  fdMint : PublicKey
}.

(** The requests of the fetchers that need a market. *)
Inductive MarketCall :=
  | loadFills (market : Market) (connection : Connection) (limit : nat)
  | Orderbook_load (connection : Connection) (address : PublicKey)
  | findFeeDiscountKeys (market : Market) (connection : Connection) (owner : PublicKey).

Definition MarketResponse (call : MarketCall) : Type :=
  match call with
  | loadFills _ _ _ => list Fill
  | Orderbook_load _ _ => Orderbook
  | findFeeDiscountKeys _ _ _ => option (list FeeDiscountKey)
  end.

(** The body of such a fetcher: besides awaiting a request it may call
    [setStoredFeeDiscountKey]. *)
Inductive Task (A : Type) : Type :=
  | Done (a : A)
  | Thrown (error : string)
  | Request (call : MarketCall) (k : MarketResponse call + string -> Task A)
  | SetStoredFeeDiscountKey (key : string) (k : Task A).

Arguments Done {A} a.
Arguments Thrown {A} error.
Arguments Request {A} call k.
Arguments SetStoredFeeDiscountKey {A} key k.

(** What running a task leaves behind. *)
Record Trace (A : Type) := {
  requests : list MarketCall;
  storedKeys : list string;
  settled : Settled A
}.

Arguments requests {A} t.
Arguments storedKeys {A} t.
Arguments settled {A} t.

Fixpoint runTask {A} (source : forall call, MarketResponse call + string) (t : Task A)
    : Trace A :=
  match t with
  | Done a => {| requests := []; storedKeys := []; settled := Fulfilled a |}
  | Thrown e => {| requests := []; storedKeys := []; settled := Failed e |}
  | Request call k =>
      let r := runTask source (k (source call)) in
      {| requests := call :: requests r; storedKeys := storedKeys r; settled := settled r |}
  | SetStoredFeeDiscountKey key k =>
      let r := runTask source k in
      {| requests := requests r; storedKeys := key :: storedKeys r; settled := settled r |}
  end.

(** The fetcher of [_useUnfilteredTrades]. *)
Definition getUnfilteredTrades (market : option Market) (connection : option Connection)
    (limit : nat) : Task (option (list Fill)) :=
  match market, connection with
  | Some market, Some connection =>
      Request (loadFills market connection limit)
              (fun r => match r with
                        | inl fills => Done (Some fills)
                        | inr e => Thrown e
                        end)
  | _, _ => Done None
  end.

(** The fetcher of [useOrderbookAccounts]. *)
Definition loadOrderbookAccounts (market : option Market) (connection : Connection)
    : Task (option Orderbook) :=
  match market with
  | None => Done None
  | Some market =>
      Request (Orderbook_load connection (address market))
              (fun r => match r with
                        | inl orderbook => Done (Some orderbook)
                        | inr e => Thrown e
                        end)
  end.

(** The fetcher of [useFeeDiscountKeys]. Reading [feeDiscountKey[0].pubkey]
    of an empty array throws a TypeError. *)
Definition getFeeDiscountKeys (connected : bool) (wallet : option Wallet)
    (market : option Market) (connection : Connection)
    : Task (option (list FeeDiscountKey)) :=
  if negb connected || negb (truthy wallet) then Done None
  else if negb (truthy market) then Done None
  else
    match wallet, market with
    | Some wallet, Some market =>
        Request (findFeeDiscountKeys market connection (publicKey wallet))
                (fun r =>
                   match r with
                   | inr e => Thrown e
                   | inl feeDiscountKey =>
                       if truthy feeDiscountKey then
                         match feeDiscountKey with
                         | Some (first :: _) =>
                             SetStoredFeeDiscountKey (toBase58 (fdPubkey first))
                               (Done feeDiscountKey)
                         | _ => Thrown "TypeError"
                         end
                       else Done feeDiscountKey
                   end)
    | _, _ => Done None
    end.

(** ** Notions the further properties are stated with *)

(** An account [getSelectedTokenAccountForMint] may return: it holds the
    mint and, when an account is selected, it is the selected one. *)
Definition selectable (mint : PublicKey) (selectedPubKey : option string)
    (a : TokenAccount) : Prop :=
  toBase58 (effectiveMint a) = toBase58 mint
  /\ forall s, selectedPubKey = Some s -> s <> "" -> toBase58 (pubkey a) = s.

(** The most recent maker fill of the event queue. *)
Definition lastMakerFill (fills : list Fill) : option Fill :=
  List.find maker fills.

(** A parsed value a template literal cannot print: an object with a
    member [toString], or an array that holds such a value. *)
Inductive unprintable : JSONValue -> Prop :=
  | unprintable_object members :
      List.In "toString" (map fst members) -> unprintable (JObject members)
  | unprintable_array items item :
      List.In item items -> unprintable item -> unprintable (JArray items).

(** Induction on a parsed value and, through arrays and objects, on the
    values inside. *)
Fixpoint JSONValue_nested_ind (P : JSONValue -> Prop)
    (Hnull : P JNull) (Hbool : forall b, P (JBool b)) (Hnumber : forall n, P (JNumber n))
    (Hstring : forall s, P (JString s))
    (Harray : forall items, List.Forall P items -> P (JArray items))
    (Hobject : forall members, List.Forall (fun m => P (snd m)) members ->
                               P (JObject members))
    (v : JSONValue) {struct v} : P v :=
  match v with
  | JNull => Hnull
  | JBool b => Hbool b
  | JNumber n => Hnumber n
  | JString s => Hstring s
  | JArray items =>
      Harray items
        ((fix all (items : list JSONValue) : List.Forall P items :=
            match items with
            | [] => List.Forall_nil _
            | item :: rest =>
                @List.Forall_cons _ P item rest
                  (JSONValue_nested_ind P Hnull Hbool Hnumber Hstring Harray Hobject item)
                  (all rest)
            end) items)
  | JObject members =>
      Hobject members
        ((fix all (members : list (string * JSONValue))
            : List.Forall (fun m => P (snd m)) members :=
            match members with
            | [] => List.Forall_nil _
            | m :: rest =>
                @List.Forall_cons _ (fun m => P (snd m)) m rest
                  (JSONValue_nested_ind P Hnull Hbool Hnumber Hstring Harray Hobject
                     (snd m))
                  (all rest)
            end) members)
  end.

(** A custom market both of whose keys [new PublicKey] accepts. *)
Definition wellFormed (validPublicKey : string -> bool) (m : CustomMarketInfo.t) : bool :=
  validPublicKey (CustomMarketInfo.address m)
  && validPublicKey (CustomMarketInfo.programId m).


(** The number of entries an object of open-orders balances holds, over all
    its mints. *)
Definition entryCount (balances : list (string * list OpenOrdersBalance)) : nat :=
  length (concat (map snd balances)).

(** ** Further fixtures *)

(** [JSON.parse] on the texts [JSON.stringify] gives for a string without
    escapes: the text between the two quotation marks. *)
Definition quotationMark : Ascii.ascii := Ascii.ascii_of_nat 34.

Fixpoint untilQuotationMark (text : string) : option string :=
  match text with
  | EmptyString => None
  | String c rest =>
      if Ascii.eqb c quotationMark
      then match rest with EmptyString => Some EmptyString | _ => None end
      else String c <$> untilQuotationMark rest
  end.

Definition parseQuoted (text : string) : option JSONValue :=
  match text with
  | String c rest =>
      if Ascii.eqb c quotationMark then JString <$> untilQuotationMark rest else None
  | EmptyString => None
  end.

Definition quoted (s : string) : string :=
  String quotationMark (s +:+ String quotationMark EmptyString).

Definition fixtureWallet : Wallet := {| publicKey := {| toBase58 := "Owner" |} |}.

Definition fixtureFeeKey : FeeDiscountKey :=
  {| fdPubkey := {| toBase58 := "FeeAccount" |}; feeTier := 1; fdBalance := 100;
     fdMint := mint1 |}.

(** A data source whose every list is empty. *)
Definition emptySource (call : MarketCall) : MarketResponse call + string :=
  match call with
  | loadFills _ _ _ => inl []
  | Orderbook_load _ _ => inl (bookOf [] [])
  | findFeeDiscountKeys _ _ _ => inl (Some [])
  end.

(** A data source that lists one fee discount account. *)
Definition feeKeySource (call : MarketCall) : MarketResponse call + string :=
  match call with
  | findFeeDiscountKeys _ _ _ => inl (Some [fixtureFeeKey])
  | other => emptySource other
  end.

(** * Properties *)

(** ** NaN in binary64 arithmetic *)

Section NaN.

Local Open Scope float_scope.

Lemma Prim2SF_nan : Prim2SF nan = S754_nan.
Proof. reflexivity. Qed.

Lemma add_nan_r x : x + nan = nan.
Proof.
  apply Prim2SF_inj. rewrite add_spec, Prim2SF_nan.
  unfold SF64add, SFadd. now destruct (Prim2SF x).
Qed.

Lemma mul_nan_l x : nan * x = nan.
Proof. apply Prim2SF_inj. now rewrite mul_spec, Prim2SF_nan. Qed.

Lemma div_nan_l x : nan / x = nan.
Proof. apply Prim2SF_inj. now rewrite div_spec, Prim2SF_nan. Qed.

Lemma ltb_nan_r x : PrimFloat.ltb x nan = false.
Proof.
  rewrite ltb_spec, Prim2SF_nan. unfold SFltb, SFcompare.
  now destruct (Prim2SF x).
Qed.

Lemma Math_min_nan_r x : Math_min x nan = nan.
Proof. unfold Math_min. now rewrite orb_true_r. Qed.

Lemma floorToDecimal_nan d : floorToDecimal nan d = nan.
Proof. unfold floorToDecimal. rewrite mul_nan_l. apply div_nan_l. Qed.

End NaN.

(** ** Expected fill price *)

(** The cost of a level is a product with the unassigned [sizeAtLevel]. *)
Lemma costAtLevel_nan (asks : bool) (level : Level) :
  ((if negb asks then 1 else ToNumber (Obj level)) * ToNumber Undefined)%float = nan.
Proof. now destruct asks. Qed.

(** A level turns both accumulators into NaN, and they stay NaN to the end
    of the book: [NaN > cost] is false, so the loop never breaks. *)
Lemma fillLoop_cons level rest cost asks spentCost avgPrice :
  fillLoop (level :: rest) cost asks spentCost avgPrice = (nan, nan).
Proof.
  revert level spentCost avgPrice.
  induction rest as [|next rest IH]; intros level spentCost avgPrice.
  - cbn [fillLoop]. rewrite costAtLevel_nan, !add_nan_r.
    unfold gt. now rewrite ltb_nan_r.
  - change (fillLoop (level :: next :: rest) cost asks spentCost avgPrice)
      with (let costAtLevel :=
              ((if negb asks then 1 else ToNumber (Obj level)) * ToNumber Undefined)%float in
            if gt (spentCost + costAtLevel)%float cost
            then (cost, (avgPrice + (cost - spentCost) * ToNumber (Obj level))%float)
            else fillLoop (next :: rest) cost asks
                   (spentCost + costAtLevel)%float
                   (avgPrice + costAtLevel * ToNumber (Obj level))%float).
    cbv zeta. rewrite costAtLevel_nan, !add_nan_r.
    unfold gt. rewrite ltb_nan_r. apply IH.
Qed.

(** On an empty side nothing is accumulated. *)
Lemma getExpectedFillPrice_empty orderbook cost asks :
  getL2 orderbook 1000 asks = [] ->
  getExpectedFillPrice orderbook cost asks None = (0 / Math_min cost 0)%float.
Proof. intros E. unfold getExpectedFillPrice. now rewrite E. Qed.

(** C1 (code defect). On asks [(10,1),(11,1)] with a target of 15 quote
    units the walk of section 4.4 gives 155/15, the binary64 number
    10.333333333333334, while [getExpectedFillPrice] returns NaN: its loop
    binds [price] to the whole level and never assigns [sizeAtLevel]. *)
Theorem C1_fixture_returns_NaN :
  getExpectedFillPrice (bookOf [] fixtureAsks) 15 true None = nan
  /\ specExpectedFillPrice fixtureAsks 15 true = (155 / 15)%float
  /\ (155 / 15)%float = 0x1.4aaaaaaaaaaabp+3%float.
Proof. repeat split; vm_compute; reflexivity. Qed.

(** C7 (code defect). Whatever the cost, the side and the tick decimals, a
    book side with at least one level makes [getExpectedFillPrice] return
    NaN, so on a book too shallow for the cost the result does not reflect
    the liquidity that was there. *)
Theorem C7_nonempty_book_returns_NaN orderbook cost asks tickSizeDecimals :
  getL2 orderbook 1000 asks <> [] ->
  getExpectedFillPrice orderbook cost asks tickSizeDecimals = nan.
Proof.
  intros Hne. unfold getExpectedFillPrice.
  destruct (getL2 orderbook 1000 asks) as [|level rest]; [congruence|].
  rewrite fillLoop_cons, Math_min_nan_r.
  change (nan / nan)%float with nan.
  destruct tickSizeDecimals as [d|]; [|reflexivity].
  destruct (negb (d =? 0)%nat); [apply floorToDecimal_nan | reflexivity].
Qed.

(** A book too shallow for its target: one ask level (10,1), target 15.
    The specification's walk gives 100/10 = 10; the code gives NaN. *)
Lemma C7_shallow_book_witness :
  getL2 (bookOf [] [ {| price := 10; quantity := 1 |} ]) 1000 true <> []
  /\ getExpectedFillPrice (bookOf [] [ {| price := 10; quantity := 1 |} ]) 15 true None = nan
  /\ specExpectedFillPrice [ {| price := 10; quantity := 1 |} ] 15 true = 10%float.
Proof.
  split; [discriminate|]. split.
  - apply (C7_nonempty_book_returns_NaN
             (bookOf [] [ {| price := 10; quantity := 1 |} ]) 15 true None).
    discriminate.
  - reflexivity.
Defined.

(** ** The order of binary64 numbers

    [Array.prototype.sort] is given the comparator [(a, b) => a - b]. That
    it sorts by value rests on a fact of binary64 arithmetic: the rounded
    difference of two numbers has the sign of their exact difference. It is
    proved here from the specification of the primitive operations. *)

(** A mantissa of [d] binary digits lies in [[2^(d-1), 2^d)]. *)
Lemma digits2_pos_bounds (m : positive) :
  2 ^ (Zpos (digits2_pos m) - 1) <= Zpos m < 2 ^ Zpos (digits2_pos m).
Proof.
  induction m as [m IH|m IH|]; cbn [digits2_pos].
  - rewrite Pos2Z.inj_succ.
    replace (Z.succ (Zpos (digits2_pos m)) - 1) with (Z.succ (Zpos (digits2_pos m) - 1)) by lia.
    rewrite !Z.pow_succ_r by lia. lia.
  - rewrite Pos2Z.inj_succ.
    replace (Z.succ (Zpos (digits2_pos m)) - 1) with (Z.succ (Zpos (digits2_pos m) - 1)) by lia.
    rewrite !Z.pow_succ_r by lia. lia.
  - cbn. lia.
Qed.

(** Aligning a mantissa to a smaller exponent multiplies it by a power of 2. *)
Lemma iter_xO_pow (m d : positive) : Zpos (Pos.iter xO m d) = Zpos m * 2 ^ Zpos d.
Proof.
  induction d as [|d IH] using Pos.peano_ind.
  - cbn. lia.
  - rewrite Pos.iter_succ, Pos2Z.inj_xO, IH, Pos2Z.inj_succ, Z.pow_succ_r by lia. lia.
Qed.

Lemma shl_align_fst mx ex ez :
  ez <= ex -> Zpos (fst (shl_align mx ex ez)) = Zpos mx * 2 ^ (ex - ez).
Proof.
  intros H. unfold shl_align.
  destruct (ez - ex) as [|p|p] eqn:E; cbn [fst]; try lia.
  - replace (ex - ez) with 0 by lia. lia.
  - rewrite iter_xO_pow. f_equal. f_equal. lia.
Qed.

(** One step of the rounding shift halves the mantissa. *)
Lemma shr_1_m r : 0 <= shr_m r -> shr_m (shr_1 r) = shr_m r / 2.
Proof.
  destruct r as [m rb sb]. cbn [shr_m]. intros H. unfold shr_1.
  destruct m as [|[p|p|]|p]; cbn [shr_m]; try lia; try reflexivity.
  - apply Z.div_unique with 1; lia.
  - apply Z.div_unique with 0; lia.
Qed.

Lemma pow2_xI p : 2 ^ Zpos p~1 = 2 * 2 ^ Zpos p * 2 ^ Zpos p.
Proof.
  replace (Zpos p~1) with (1 + Zpos p + Zpos p) by lia.
  rewrite !Z.pow_add_r by lia. lia.
Qed.

Lemma pow2_xO p : 2 ^ Zpos p~0 = 2 ^ Zpos p * 2 ^ Zpos p.
Proof.
  replace (Zpos p~0) with (Zpos p + Zpos p) by lia.
  rewrite !Z.pow_add_r by lia. lia.
Qed.

Lemma iter_shr_1_m p r :
  0 <= shr_m r -> shr_m (SpecFloat.iter_pos shr_1 p r) = shr_m r / 2 ^ Zpos p.
Proof.
  revert r. induction p as [p IH|p IH|]; intros r H; cbn [SpecFloat.iter_pos];
    try assert (Hpow : 0 < 2 ^ Zpos p) by (apply Z.pow_pos_nonneg; lia).
  - assert (H1 : 0 <= shr_m (shr_1 r)) by (rewrite shr_1_m by lia; apply Z.div_pos; lia).
    assert (H2 : 0 <= shr_m (SpecFloat.iter_pos shr_1 p (shr_1 r)))
      by (rewrite IH by lia; apply Z.div_pos; lia).
    rewrite IH, IH, shr_1_m by lia.
    now rewrite pow2_xI, <- !Z.div_div by lia.
  - assert (H2 : 0 <= shr_m (SpecFloat.iter_pos shr_1 p r))
      by (rewrite IH by lia; apply Z.div_pos; lia).
    rewrite IH, IH by lia. now rewrite pow2_xO, <- Z.div_div by lia.
  - rewrite shr_1_m by lia. reflexivity.
Qed.

Lemma shr_record_of_loc_m m l : shr_m (shr_record_of_loc m l) = m.
Proof. now destruct l as [|[]]. Qed.

(** Rounding a positive mantissa whose exponent is in range never loses it. *)
Lemma shr_fexp_pos (m : positive) e l :
  emin <= e ->
  0 < shr_m (fst (shr_fexp prec emax (Zpos m) e l))
  /\ emin <= snd (shr_fexp prec emax (Zpos m) e l).
Proof.
  intros He. unfold shr_fexp, shr. cbn [Zdigits2].
  pose proof (digits2_pos_bounds m) as Hd.
  set (d := Zpos (digits2_pos m)) in *.
  destruct (fexp prec emax (d + e) - e) as [|p|p] eqn:En; cbn [fst snd];
    rewrite ?shr_record_of_loc_m; try lia.
  rewrite iter_shr_1_m by (rewrite shr_record_of_loc_m; lia).
  rewrite shr_record_of_loc_m.
  unfold fexp in En.
  assert (Hp : Zpos p = d - prec) by (unfold prec in *; lia).
  split; [|lia].
  apply Z.div_str_pos. split; [apply Z.pow_pos_nonneg; lia|].
  transitivity (2 ^ (d - 1)); [|lia].
  apply Z.pow_le_mono_r; unfold prec in *; lia.
Qed.

Lemma binary_round_aux_nonzero s (m : positive) e l :
  emin <= e ->
  nonzero_signed s (binary_round_aux prec emax s (Zpos m) e l).
Proof.
  intros He. unfold binary_round_aux.
  pose proof (shr_fexp_pos m e l He) as [H1 H1e].
  destruct (shr_fexp prec emax (Zpos m) e l) as [mrs' e'] eqn:E1. cbn [fst snd] in *.
  set (m2 := round_nearest_even (shr_m mrs') (loc_of_shr_record mrs')).
  assert (Hm2 : 0 < m2).
  { unfold m2, round_nearest_even.
    destruct (loc_of_shr_record mrs') as [|[]]; try lia.
    destruct (Z.even _); lia. }
  destruct m2 as [|p2|p2] eqn:Em2; try lia.
  pose proof (shr_fexp_pos p2 e' loc_Exact H1e) as [H2 _].
  destruct (shr_fexp prec emax (Zpos p2) e' loc_Exact) as [mrs'' e''] eqn:E2.
  cbn [fst] in H2.
  destruct (shr_m mrs'') as [|p3|p3]; try lia.
  destruct (e'' <=? emax - prec); [left; eauto | now right].
Qed.

Lemma binary_round_nonzero s (m : positive) e :
  emin <= e -> nonzero_signed s (binary_round prec emax s m e).
Proof.
  intros He. unfold binary_round.
  destruct (shl_align m e (fexp prec emax (Zpos (digits2_pos m) + e))) as [mz ez] eqn:E.
  apply binary_round_aux_nonzero.
  unfold shl_align in E.
  destruct (fexp prec emax (Zpos (digits2_pos m) + e) - e) as [|p|p] eqn:En;
    injection E as <- <-; try lia.
  unfold fexp. lia.
Qed.

(** The sign of a rounded integer is the sign of the integer. *)
Lemma SFltb_zero_binary_normalize z e :
  emin <= e ->
  SFltb (S754_zero false) (binary_normalize prec emax z e false) = (0 <? z).
Proof.
  intros He. destruct z as [|p|p]; cbn [binary_normalize]; [reflexivity| |].
  - destruct (binary_round_nonzero false p e He) as [(m' & e' & ->)| ->]; reflexivity.
  - destruct (binary_round_nonzero true p e He) as [(m' & e' & ->)| ->]; reflexivity.
Qed.

(** What a valid finite number knows of its mantissa and exponent: the
    exponent is in range, and above the least exponent the mantissa has all
    its 53 digits. *)
Lemma bounded_facts m e :
  bounded prec emax m e = true ->
  emin <= e <= emax - prec
  /\ Zpos (digits2_pos m) <= prec
  /\ (emin < e -> Zpos (digits2_pos m) = prec).
Proof.
  unfold bounded, canonical_mantissa, fexp, SpecFloat.emin, prec, emax.
  rewrite andb_true_iff, Z.eqb_eq, Z.leb_le.
  intros [Hc Hb]. repeat split; lia.
Qed.

(** A finite number is not zero and lies below the infinities. *)
Lemma finite_ord_bounds m e :
  bounded prec emax m e = true ->
  0 < Zpos m * 2 ^ (e - emin) < 2 ^ (emax - emin).
Proof.
  intros Hb. apply bounded_facts in Hb as (He & Hd & _).
  pose proof (digits2_pos_bounds m) as [_ Hm].
  assert (HK : 0 < 2 ^ (e - emin)) by (apply Z.pow_pos_nonneg; lia).
  split; [lia|].
  apply Z.lt_le_trans with (2 ^ prec * 2 ^ (e - emin)).
  - apply Z.mul_lt_mono_pos_r; [lia|].
    eapply Z.lt_le_trans; [exact Hm|]. apply Z.pow_le_mono_r; lia.
  - rewrite <- Z.pow_add_r by (try easy; lia).
    apply Z.pow_le_mono_r; lia.
Qed.

(** A number with the larger exponent is the larger number: its mantissa
    has all its bits. *)
Lemma scaled_lt (m1 m2 A K P : Z) :
  0 < A -> 0 < K -> 0 < P -> m1 < 2 * A -> A <= m2 ->
  m1 * K < m2 * (P * 2 * K).
Proof.
  intros HA HK HP H1 H2.
  assert (m1 * K < 2 * A * K) by (apply Z.mul_lt_mono_pos_r; lia).
  assert (2 * A * K <= 2 * m2 * K) by (apply Z.mul_le_mono_nonneg_r; lia).
  assert (0 <= 2 * m2 * K) by lia.
  assert (1 * (2 * m2 * K) <= P * (2 * m2 * K))
    by (apply Z.mul_le_mono_nonneg_r; lia).
  lia.
Qed.

(** Comparing exponents, then mantissas, compares the values. *)
Lemma compare_finite_pos m1 e1 m2 e2 :
  bounded prec emax m1 e1 = true -> bounded prec emax m2 e2 = true ->
  match e1 ?= e2 with
  | Lt => Lt
  | Gt => Gt
  | Eq => Pos.compare_cont Eq m1 m2
  end = (Zpos m1 * 2 ^ (e1 - emin) ?= Zpos m2 * 2 ^ (e2 - emin)).
Proof.
  intros H1 H2.
  apply bounded_facts in H1 as (He1 & Hd1 & Hn1).
  apply bounded_facts in H2 as (He2 & Hd2 & Hn2).
  pose proof (digits2_pos_bounds m1) as [Hl1 Hu1].
  pose proof (digits2_pos_bounds m2) as [Hl2 Hu2].
  assert (Hupp : forall d (m : Z), d <= prec -> m < 2 ^ d -> m < 2 * 2 ^ 52).
  { intros d m Hd Hm. change (2 * 2 ^ 52) with (2 ^ prec).
    eapply Z.lt_le_trans; [exact Hm|]. apply Z.pow_le_mono_r; lia. }
  apply Hupp in Hu1; [|exact Hd1]. apply Hupp in Hu2; [|exact Hd2].
  destruct (Z.compare_spec e1 e2) as [->|Hlt|Hgt].
  - assert (HK : 0 < 2 ^ (e2 - emin)) by (apply Z.pow_pos_nonneg; lia).
    change (Pos.compare_cont Eq m1 m2) with (Pos.compare m1 m2).
    destruct (Pos.compare_spec m1 m2) as [->|Hm|Hm]; symmetry.
    + apply Z.compare_refl.
    + apply Z.compare_lt_iff. apply Z.mul_lt_mono_pos_r; lia.
    + apply Z.compare_gt_iff. apply Z.mul_lt_mono_pos_r; lia.
  - symmetry. apply Z.compare_lt_iff.
    replace (e2 - emin) with ((e2 - e1 - 1) + 1 + (e1 - emin)) by lia.
    rewrite !Z.pow_add_r by lia. change (2 ^ 1) with 2.
    rewrite (Hn2 ltac:(lia)) in Hl2. change (2 ^ (prec - 1)) with (2 ^ 52) in Hl2.
    apply scaled_lt with (A := 2 ^ 52); try lia; try reflexivity;
      apply Z.pow_pos_nonneg; lia.
  - symmetry. apply Z.compare_gt_iff.
    replace (e1 - emin) with ((e1 - e2 - 1) + 1 + (e2 - emin)) by lia.
    rewrite !Z.pow_add_r by lia. change (2 ^ 1) with 2.
    rewrite (Hn1 ltac:(lia)) in Hl1. change (2 ^ (prec - 1)) with (2 ^ 52) in Hl1.
    apply scaled_lt with (A := 2 ^ 52); try lia; try reflexivity;
      apply Z.pow_pos_nonneg; lia.
Qed.

Lemma inf_bound_pos : 0 < 2 ^ (emax - emin).
Proof. reflexivity. Qed.

(** Case analysis on every sign bit in the context. *)
Ltac destruct_signs :=
  repeat match goal with s : bool |- _ => destruct s end.

(** A goal [c = (a ?= b)] whose outcome linear arithmetic decides. *)
Ltac compare_by_lia :=
  symmetry;
  first [ apply Z.compare_refl
        | apply Z.compare_lt_iff; lia
        | apply Z.compare_gt_iff; lia ].

(** On valid numbers other than NaN the comparison of binary64 is the
    comparison of integers. *)
Lemma SFcompare_ord x y :
  valid_binary x = true -> valid_binary y = true ->
  x <> S754_nan -> y <> S754_nan ->
  SFcompare x y = Some (ord x ?= ord y).
Proof.
  pose proof inf_bound_pos as HB.
  destruct x as [sx|sx| |sx mx ex], y as [sy|sy| |sy my ey];
    cbn [valid_binary]; intros Hx Hy Nx Ny; try congruence;
    try pose proof (finite_ord_bounds _ _ Hx) as Bx;
    try pose proof (finite_ord_bounds _ _ Hy) as By;
    cbn [SFcompare ord].
  1-8: destruct_signs; cbn [cond_Zopp]; apply f_equal; compare_by_lia.
  apply f_equal. pose proof (compare_finite_pos _ _ _ _ Hx Hy) as Hc.
  destruct sx, sy; cbn [cond_Zopp].
  - rewrite Z.compare_opp, (Z.compare_antisym (Zpos mx * _)), <- Hc.
    now destruct (ex ?= ey).
  - compare_by_lia.
  - compare_by_lia.
  - exact Hc.
Qed.

Lemma SFltb_ord x y :
  valid_binary x = true -> valid_binary y = true ->
  x <> S754_nan -> y <> S754_nan ->
  SFltb x y = (ord x <? ord y).
Proof.
  intros Hx Hy Nx Ny. unfold SFltb, Z.ltb. now rewrite SFcompare_ord.
Qed.

Lemma SFleb_ord x y :
  valid_binary x = true -> valid_binary y = true ->
  x <> S754_nan -> y <> S754_nan ->
  SFleb x y = (ord x <=? ord y).
Proof.
  intros Hx Hy Nx Ny. unfold SFleb, Z.leb. rewrite SFcompare_ord by assumption.
  now destruct (ord x ?= ord y).
Qed.

Lemma ord_finite_split s m e ez :
  emin <= ez <= e ->
  cond_Zopp s (Zpos m * 2 ^ (e - emin))
  = cond_Zopp s (Zpos m * 2 ^ (e - ez)) * 2 ^ (ez - emin).
Proof.
  intros H. replace (e - emin) with ((e - ez) + (ez - emin)) by lia.
  rewrite Z.pow_add_r by lia. destruct s; cbn [cond_Zopp]; lia.
Qed.

(** [x - y] is above zero exactly when [x] is above [y]: rounding the
    difference keeps its sign. *)
Lemma SFsub_sign x y :
  valid_binary x = true -> valid_binary y = true ->
  x <> S754_nan -> y <> S754_nan ->
  SFltb (S754_zero false) (SF64sub x y) = (ord y <? ord x).
Proof.
  pose proof inf_bound_pos as HB.
  destruct x as [sx|sx| |sx mx ex], y as [sy|sy| |sy my ey];
    cbn [valid_binary]; intros Hx Hy Nx Ny; try congruence;
    try pose proof (finite_ord_bounds _ _ Hx) as Bx;
    try pose proof (finite_ord_bounds _ _ Hy) as By;
    unfold SF64sub; cbn [SFsub ord].
  1-8: destruct_signs; cbn [negb cond_Zopp SFltb SFcompare]; symmetry;
       first [apply Z.ltb_lt; lia | apply Z.ltb_ge; lia].
  apply bounded_facts in Hx as (Hex & _). apply bounded_facts in Hy as (Hey & _).
  rewrite SFltb_zero_binary_normalize by lia.
  rewrite !shl_align_fst by lia.
  rewrite (ord_finite_split sx mx ex (Z.min ex ey)) by lia.
  rewrite (ord_finite_split sy my ey (Z.min ex ey)) by lia.
  set (K := 2 ^ (Z.min ex ey - emin)).
  assert (HK : 0 < K) by (apply Z.pow_pos_nonneg; lia).
  set (a := cond_Zopp sx _). set (b := cond_Zopp sy _).
  destruct (Z.ltb_spec 0 (a - b)); symmetry; [apply Z.ltb_lt | apply Z.ltb_ge]; nia.
Qed.


Lemma not_nan_Prim2SF x : is_nan x = false -> Prim2SF x <> S754_nan.
Proof.
  unfold is_nan. rewrite FloatAxioms.eqb_spec. intros H E. rewrite E in H. discriminate.
Qed.

(** The comparator [(a, b) => a - b] is positive exactly when [a > b]. *)
Lemma sub_gt_zero x y :
  is_nan x = false -> is_nan y = false ->
  PrimFloat.ltb 0 (x - y)%float = PrimFloat.ltb y x.
Proof.
  intros Hx Hy. apply not_nan_Prim2SF in Hx, Hy.
  rewrite !ltb_spec, sub_spec.
  change (Prim2SF 0%float) with (S754_zero false).
  rewrite SFsub_sign, SFltb_ord; auto using Prim2SF_valid.
Qed.

Lemma ltb_ord x y :
  is_nan x = false -> is_nan y = false ->
  PrimFloat.ltb x y = (ord (Prim2SF x) <? ord (Prim2SF y)).
Proof.
  intros Hx Hy. apply not_nan_Prim2SF in Hx, Hy.
  rewrite ltb_spec. apply SFltb_ord; auto using Prim2SF_valid.
Qed.

Lemma leb_ord x y :
  is_nan x = false -> is_nan y = false ->
  PrimFloat.leb x y = (ord (Prim2SF x) <=? ord (Prim2SF y)).
Proof.
  intros Hx Hy. apply not_nan_Prim2SF in Hx, Hy.
  rewrite leb_spec. apply SFleb_ord; auto using Prim2SF_valid.
Qed.


(** Sorting three numbers by [(a, b) => a - b] puts their median in the
    middle, as long as none of them is NaN. *)
Lemma sortedMiddle_median3 a b c :
  is_nan a = false -> is_nan b = false -> is_nan c = false ->
  sortedMiddle a b c = Some (median3 a b c).
Proof.
  intros Ha Hb Hc. unfold sortedMiddle, sort, median3. cbn [foldr sort_insert].
  rewrite !leb_ord by assumption.
  repeat match goal with
         | |- context [if gt (?p - ?q)%float 0 then _ else _] =>
             let E := fresh "E" in
             destruct (gt (p - q)%float 0) eqn:E;
             unfold gt in E; rewrite sub_gt_zero, ltb_ord in E by assumption;
             cbn [sort_insert]
         end;
    repeat match goal with
           | E : (_ <? _) = true |- _ => apply Z.ltb_lt in E
           | E : (_ <? _) = false |- _ => apply Z.ltb_ge in E
           end;
    repeat match goal with
           | |- context [?x <=? ?y] => destruct (Z.leb_spec x y)
           end;
    first [reflexivity | exfalso; lia].
Qed.

Lemma truthy_not_nan (x : number) : truthy x = true -> is_nan x = false.
Proof.
  unfold truthy, number_truthy. rewrite negb_true_iff, orb_false_iff. tauto.
Qed.

(** ** Mark price *)

(** Sorting three numbers always leaves one of them in the middle. *)
Lemma sortedMiddle_elem a b c :
  exists m, sortedMiddle a b c = Some m /\ (m = a \/ m = b \/ m = c).
Proof.
  unfold sortedMiddle, sort. cbn [foldr sort_insert].
  destruct (gt (b - c) 0); cbn [sort_insert];
    repeat (match goal with |- context [if ?g then _ else _] => destruct g end;
            cbn [sort_insert]);
    eexists; (split; [reflexivity|]); auto.
Qed.

(** An empty side gives no mark price. *)
Lemma markPrice_empty_side orderbook trades :
  bids orderbook = [] \/ asks orderbook = [] -> markPrice orderbook trades = None.
Proof.
  unfold markPrice. intros [E|E]; rewrite E; [reflexivity|].
  now destruct (bids orderbook).
Qed.

(** The fixture of section 8: no trade history gives the midpoint 10.5, and
    a last trade at 10.8 (the binary64 number nearest to it) gives 10.8. *)
Example markPrice_fixture :
  markPrice fixtureBook None = Some 10.5%float
  /\ markPrice fixtureBook (Some []) = Some 10.5%float
  /\ markPrice fixtureBook (Some [tradeAt 0x1.599999999999ap+3]) = Some 0x1.599999999999ap+3%float.
Proof. repeat split; reflexivity. Qed.

(** C2 (counterexample). A book whose best bid is priced 0 has both sides
    non-empty, yet the mark price is absent rather than the midpoint 5.5:
    [bb && ba] tests the prices themselves, and 0 is falsy. *)
Lemma C2_zero_price_counterexample :
  let orderbook := {| bids := [(0, 1)]; asks := [(11, 1)] |}%float in
  bids orderbook <> [] /\ asks orderbook <> []
  /\ markPrice orderbook None = None
  /\ markPrice orderbook None <> Some ((0 + 11) / 2)%float.
Proof. cbv zeta. repeat split; try discriminate. Qed.

(** C2 (amended). With an empty side the mark price is absent. With both
    sides non-empty and both best prices truthy (neither 0 nor NaN), it is
    the median of best bid, best ask and last trade price when a last trade
    with a truthy price exists, and [(bestBid + bestAsk) / 2] otherwise.
    With both sides non-empty and a best price that is 0 or NaN, it is
    absent. *)
Theorem C2_markPrice_amended :
  (forall orderbook trades,
     bids orderbook = [] \/ asks orderbook = [] -> markPrice orderbook trades = None)
  /\ (forall orderbook trades bestBid bidSize bidsRest bestAsk askSize asksRest,
        bids orderbook = (bestBid, bidSize) :: bidsRest ->
        asks orderbook = (bestAsk, askSize) :: asksRest ->
        truthy bestBid = true -> truthy bestAsk = true ->
        markPrice orderbook trades =
          match lastTradePrice trades with
          | Some last =>
              if truthy last then Some (median3 bestBid bestAsk last)
              else Some ((bestBid + bestAsk) / 2)%float
          | None => Some ((bestBid + bestAsk) / 2)%float
          end)
  /\ (forall orderbook trades bestBid bidSize bidsRest bestAsk askSize asksRest,
        bids orderbook = (bestBid, bidSize) :: bidsRest ->
        asks orderbook = (bestAsk, askSize) :: asksRest ->
        is_zero bestBid || is_nan bestBid || is_zero bestAsk || is_nan bestAsk = true ->
        markPrice orderbook trades = None).
Proof.
  split; [exact markPrice_empty_side|]. split.
  - intros orderbook trades bestBid bidSize bidsRest bestAsk askSize asksRest Eb Ea Hb Ha.
    unfold markPrice, lastTradePrice. rewrite Eb, Ea. cbn [fst].
    rewrite Hb, Ha. cbn [andb].
    destruct trades as [[|t ts]|]; try reflexivity.
    destruct (truthy (fillPrice t)) eqn:Hl; [|reflexivity].
    apply sortedMiddle_median3; now apply truthy_not_nan.
  - intros orderbook trades bestBid bidSize bidsRest bestAsk askSize asksRest Eb Ea Hfalsy.
    unfold markPrice. rewrite Eb, Ea. cbn [fst].
    assert (truthy bestBid && truthy bestAsk = false) as ->; [|reflexivity].
    unfold truthy, number_truthy.
    destruct (is_zero bestBid), (is_nan bestBid), (is_zero bestAsk), (is_nan bestAsk);
      cbn in *; congruence.
Qed.

(** The fixture book with a last trade at 10.8, through the theorem. *)
Lemma C2_markPrice_witness :
  markPrice fixtureBook (Some [tradeAt 0x1.599999999999ap+3])
  = Some 0x1.599999999999ap+3%float.
Proof.
  exact (proj1 (proj2 C2_markPrice_amended) fixtureBook
           (Some [tradeAt 0x1.599999999999ap+3])
           10%float 1%float [(9, 2)%float] 11%float 1%float [(12, 3)%float]
           eq_refl eq_refl eq_refl eq_refl).
Defined.

(** A best ask of NaN, and a best bid of -0, leave no mark price, whatever
    was traded. *)
Example markPrice_falsy_price :
  markPrice {| bids := [(10, 1)]; asks := [(nan, 1)] |}%float
    (Some [tradeAt 10.5]) = None
  /\ markPrice {| bids := [(-0, 1)]; asks := [(11, 1)] |}%float None = None.
Proof. split; reflexivity. Qed.

(** ** The order book flag *)

(** C9. The second component of [useOrderbook] is [true] whatever is
    loaded: [bids] and [asks] are arrays, and an array is truthy even when
    it is empty. *)
Theorem C9_useOrderbook_flag_constant orderbook market depth :
  snd (useOrderbook orderbook market depth) = true.
Proof. unfold useOrderbook. cbn [snd]. reflexivity. Qed.

(** With nothing loaded both sides are empty and the flag is still [true]. *)
Example useOrderbook_nothing_loaded depth :
  useOrderbook None None depth = ({| bids := []; asks := [] |}, true).
Proof. reflexivity. Qed.

(** ** Balance reconciliation *)

Section BalanceFacts.

Variable DEX_ID : PublicKey.
Variable validPublicKey : string -> bool.
Variable divideBnToNumber : BN -> BN -> number.

Local Abbreviation useBalances := (useBalances DEX_ID validPublicKey divideBnToNumber).
Local Abbreviation knownCurrencies := (knownCurrencies DEX_ID validPublicKey).

(** [useBalances] throws with the market provider; otherwise it reports
    nothing, or one row for the base currency followed by one for the quote
    currency. *)
Lemma useBalances_rows h :
  match useMarket DEX_ID validPublicKey h with
  | None => useBalances h = None /\ knownCurrencies h = None
  | Some _ =>
      match knownCurrencies h with
      | None => useBalances h = Some []
      | Some (b, q) =>
          exists rowB rowQ,
            useBalances h = Some [rowB; rowQ] /\ coin rowB = b /\ coin rowQ = q
      end
  end.
Proof.
  unfold knownCurrencies, useBalances.
  destruct (useMarket DEX_ID validPublicKey h) as [details|]; [|now split].
  cbn [mbind option_bind].
  destruct (baseCurrency details) as [b|]; [|reflexivity].
  destruct (quoteCurrency details) as [q|]; [|reflexivity].
  destruct (_ || _); [reflexivity|]. eauto.
Qed.

(** C5. With no selected open-orders account, every row [useBalances]
    reports has [orders] and [unsettled] absent, not 0; and when both
    currencies of the market are known there is such a row for the base
    and for the quote currency. *)
Theorem C5_no_open_orders_account_absent h :
  useSelectedOpenOrdersAccount h = None ->
  (forall rows, useBalances h = Some rows ->
     Forall (fun row => orders row = None /\ unsettled row = None) rows)
  /\ forall b q, knownCurrencies h = Some (b, q) ->
       map coin <$> useBalances h = Some [b; q].
Proof.
  intros Hoo. split.
  - unfold useBalances. rewrite Hoo.
    destruct (useMarket DEX_ID validPublicKey h) as [details|]; [|discriminate].
    cbn [mbind option_bind]. intros rows [= <-].
    destruct (baseCurrency details) as [b|]; [|constructor].
    destruct (quoteCurrency details) as [q|]; [|constructor].
    destruct (_ || _); [constructor|].
    repeat constructor.
  - intros b q Hk. pose proof (useBalances_rows h) as Hr.
    destruct (useMarket DEX_ID validPublicKey h); [|destruct Hr; congruence].
    rewrite Hk in Hr.
    destruct Hr as (rowB & rowQ & -> & <- & <-). reflexivity.
Qed.

(** C4 (amended). For a market [m] whose two currencies are known, and a
    selected open-orders account with its four balance fields,
    [useBalances] reports a base row with
    [orders = (baseTotal - baseFree) / 10^baseDecimals] and
    [unsettled = baseFree / 10^baseDecimals], and a quote row the same with
    the quote fields and decimals. The wallet entry of a row is that of
    the token account [getSelectedTokenAccountForMint] picks for the mint
    among the wallet's accounts: once that account is loaded, its raw
    amount (bytes 64 to 72, little-endian) over [10^decimals], or the
    lamports over [10^9] for the native mint; and it is absent when there
    is no such account or its data is not loaded. *)
Theorem C4_useBalances_scaled h m oo baseTotal baseFree quoteTotal quoteFree b q :
  market h = Some m ->
  useSelectedOpenOrdersAccount h = Some oo ->
  baseTokenTotal oo = Some baseTotal -> baseTokenFree oo = Some baseFree ->
  quoteTokenTotal oo = Some quoteTotal -> quoteTokenFree oo = Some quoteFree ->
  knownCurrencies h = Some (b, q) ->
  exists rowB rowQ,
    useBalances h = Some [rowB; rowQ]
    /\ coin rowB = b /\ coin rowQ = q
    /\ orders rowB
       = Some (divideBnToNumber (baseTotal - baseFree) (10 ^ Z.of_nat (baseDecimals m)))
    /\ unsettled rowB
       = Some (divideBnToNumber baseFree (10 ^ Z.of_nat (baseDecimals m)))
    /\ orders rowQ
       = Some (divideBnToNumber (quoteTotal - quoteFree) (10 ^ Z.of_nat (quoteDecimals m)))
    /\ unsettled rowQ
       = Some (divideBnToNumber quoteFree (10 ^ Z.of_nat (quoteDecimals m)))
    /\ wallet rowB
       = match getSelectedTokenAccountForMint (tokenAccounts h) (Some (baseMintAddress m))
                 (selectedTokenAccounts h !! toBase58 (baseMintAddress m)) with
         | Some tokenAccount =>
             match useAccountInfo h (Some (pubkey tokenAccount)) with
             | (Some info, true) =>
                 Some (if equals (baseMintAddress m) WRAPPED_SOL_MINT
                       then (of_Z (lamports info) / 1e9)%float
                       else divideBnToNumber (BN_le (slice 64 72 (data info)))
                              (10 ^ Z.of_nat (baseDecimals m)))
             | _ => None
             end
         | None => None
         end
    /\ wallet rowQ
       = match getSelectedTokenAccountForMint (tokenAccounts h) (Some (quoteMintAddress m))
                 (selectedTokenAccounts h !! toBase58 (quoteMintAddress m)) with
         | Some tokenAccount =>
             match useAccountInfo h (Some (pubkey tokenAccount)) with
             | (Some info, true) =>
                 Some (if equals (quoteMintAddress m) WRAPPED_SOL_MINT
                       then (of_Z (lamports info) / 1e9)%float
                       else divideBnToNumber (BN_le (slice 64 72 (data info)))
                              (10 ^ Z.of_nat (quoteDecimals m)))
             | _ => None
             end
         | None => None
         end.
Proof.
  intros Hm Hoo Hbt Hbf Hqt Hqf.
  unfold knownCurrencies, useBalances.
  destruct (useMarket DEX_ID validPublicKey h) as [details|]; [|discriminate].
  cbn [mbind option_bind].
  destruct (baseCurrency details) as [b'|]; [|discriminate].
  destruct (quoteCurrency details) as [q'|]; [|discriminate].
  destruct (_ || _); [discriminate|]. intros [= -> ->].
  rewrite Hoo, Hm. cbn [mbind option_bind]. rewrite Hbt, Hbf, Hqt, Hqf.
  do 2 eexists. split; [reflexivity|]. cbn [coin orders unsettled wallet].
  cbn [truthy option_truthy OpenOrders_truthy BN_truthy Market_truthy andb].
  repeat (split; [reflexivity|]).
  split.
  - unfold useSelectedBaseCurrencyBalances, useSelectedBaseCurrencyAccount.
    rewrite Hm. cbn [fmap option_fmap option_map mbind option_bind].
    destruct (getSelectedTokenAccountForMint _ _ _) as [tokenAccount|];
      cbn [fmap option_fmap option_map].
    + destruct (useAccountInfo h (Some (pubkey tokenAccount))) as [[info|] []];
        try reflexivity.
      now destruct (equals _ _).
    + now destruct (useAccountInfo h None).
  - unfold useSelectedQuoteCurrencyBalances, useSelectedQuoteCurrencyAccount.
    rewrite Hm. cbn [fmap option_fmap option_map mbind option_bind].
    destruct (getSelectedTokenAccountForMint _ _ _) as [tokenAccount|];
      cbn [fmap option_fmap option_map].
    + destruct (useAccountInfo h (Some (pubkey tokenAccount))) as [[info|] []];
        try reflexivity.
      now destruct (equals _ _).
    + now destruct (useAccountInfo h None).
Qed.

End BalanceFacts.

(** ** Fetchers while the wallet is not connected *)

(** C6. While [connected] is false or there is no wallet, both fetchers
    settle at once with [null]: the bodies are already resolved, so running
    them against any data source sends no request and fulfils, not rejects,
    the promise. *)
Theorem C6_not_connected_resolves_null connected wallet market connection :
  connected = false \/ wallet = None ->
  getOpenOrdersAccounts connected wallet market connection = Resolved None
  /\ getTokenAccounts connected wallet connection = Resolved None
  /\ forall source,
       run source (getOpenOrdersAccounts connected wallet market connection)
       = ([], Fulfilled None)
       /\ run source (getTokenAccounts connected wallet connection) = ([], Fulfilled None).
Proof.
  intros H.
  assert (Hguard : negb connected || negb (truthy wallet) = true).
  { destruct H as [-> | ->]; [reflexivity|]. apply orb_true_r. }
  assert (Hoo : getOpenOrdersAccounts connected wallet market connection = Resolved None).
  { unfold getOpenOrdersAccounts. now rewrite Hguard. }
  assert (Hta : getTokenAccounts connected wallet connection = Resolved None).
  { unfold getTokenAccounts. now rewrite Hguard. }
  repeat split; try assumption; intros; now rewrite ?Hoo, ?Hta.
Qed.

(** Once connected with a wallet and a market, the fetcher does go to the
    data source, and a failure there rejects the promise. *)
Lemma getOpenOrdersAccounts_connected wallet market connection source :
  run source (getOpenOrdersAccounts true (Some wallet) (Some market) connection)
  = ([findOpenOrdersAccountForOwner market connection (publicKey wallet)],
     match source (findOpenOrdersAccountForOwner market connection (publicKey wallet)) with
     | inl accounts => Fulfilled (Some accounts)
     | inr e => Failed e
     end).
Proof.
  cbn. now destruct (source _).
Qed.

(** ** Default market and the root route *)

Section MarketFacts.

Variable DEX_ID : PublicKey.
Variable JSON_parse : string -> option JSONValue.
Variable Number_toString : number -> string.

(** C10. No market of the shipped list is named 'SRM/USDT', so
    [DEFAULT_MARKET] is undefined; with no stored 'marketAddress'
    preference [getTradePageUrl()] is then '/market/' with an empty address,
    and that is where the root route redirects. *)
Theorem C10_default_market_undefined (localStorage : gmap string string) :
  localStorage !! "marketAddress" = None ->
  DEFAULT_MARKET DEX_ID = None
  /\ getTradePageUrl DEX_ID JSON_parse Number_toString localStorage None = Some "/market/"
  /\ Routes DEX_ID JSON_parse Number_toString localStorage ≫= head
     = Some {| exact := true; path := "/"; target := Redirect "/market/" |}.
Proof.
  intros Hsaved.
  assert (Hurl : getTradePageUrl DEX_ID JSON_parse Number_toString localStorage None = Some "/market/").
  { unfold getTradePageUrl. rewrite Hsaved. reflexivity. }
  repeat split; [exact Hurl|].
  unfold Routes. rewrite Hurl. reflexivity.
Qed.

(** An address passed to [getTradePageUrl] is used as it is. *)
Lemma getTradePageUrl_given localStorage (marketAddress : string) :
  marketAddress <> "" ->
  getTradePageUrl DEX_ID JSON_parse Number_toString localStorage (Some marketAddress)
  = Some ("/market/" +:+ marketAddress).
Proof.
  intros Hne. unfold getTradePageUrl.
  assert (truthy (Some marketAddress) = true) as ->; [|reflexivity].
  change (negb (String.eqb marketAddress "") = true).
  now rewrite (proj2 (String.eqb_neq _ _) Hne).
Qed.

End MarketFacts.

(** ** Cache keys *)

Lemma SFeqb_finite s m e s' m' e' :
  SFeqb (S754_finite s m e) (S754_finite s' m' e') = true
  <-> s = s' /\ m = m' /\ e = e'.
Proof.
  unfold SFeqb, SFcompare. split.
  - destruct s, s'; try discriminate;
      destruct (Z.compare_spec e e') as [->| |]; try discriminate;
      destruct (Pos.compare_spec m m') as [->| |];
      rewrite ?Pos.compare_cont_spec; cbn;
      try discriminate; auto;
      match goal with
      | H : (?a < ?b)%positive |- _ =>
          rewrite ?(proj2 (Pos.compare_lt_iff a b) H), ?(proj2 (Pos.compare_gt_iff b a) H);
          discriminate
      end.
  - intros (-> & -> & ->).
    rewrite Z.compare_refl, Pos.compare_cont_refl. now destruct s'.
Qed.

Lemma SFeqb_finite_refl s m e :
  SFeqb (S754_finite s m e) (S754_finite s m e) = true.
Proof. now apply SFeqb_finite. Qed.

(** [a === b], or both NaN, exactly when the two numbers have one key. *)
Lemma sameNumber_iff (a b : number) :
  PrimFloat.eqb a b || (is_nan a && is_nan b) = true <-> numberKey a = numberKey b.
Proof.
  unfold is_nan, numberKey. rewrite !FloatAxioms.eqb_spec.
  destruct (Prim2SF a) as [sa|sa| |sa ma ea], (Prim2SF b) as [sb|sb| |sb mb eb];
    rewrite ?SFeqb_finite_refl;
    try solve [ repeat match goal with s : bool |- _ => destruct s end;
                cbn; split; (discriminate || reflexivity || congruence) ].
  rewrite andb_false_r, orb_false_r, SFeqb_finite. split.
  - now intros (-> & -> & ->).
  - now intros [= -> -> ->].
Qed.

Lemma sameValueZero_iff x y : sameValueZero x y = true <-> identityOf x = identityOf y.
Proof.
  destruct x, y; cbn; try (split; (discriminate || reflexivity)).
  - rewrite Bool.eqb_true_iff. split; congruence.
  - rewrite sameNumber_iff. split; congruence.
  - rewrite String.eqb_eq. split; congruence.
  - rewrite Nat.eqb_eq. split; congruence.
Qed.

Lemma sameItems_iff xs ys : sameItems xs ys = true <-> map identityOf xs = map identityOf ys.
Proof.
  revert ys. induction xs as [|x xs IH]; intros [|y ys]; cbn;
    try (split; (discriminate || reflexivity)).
  rewrite andb_true_iff, sameValueZero_iff, IH. split.
  - now intros [-> ->].
  - intros [= -> ->]. now split.
Qed.

(** On primitives deep equality and SameValueZero are one test. *)
Lemma deepEqual_primitive x y :
  primitive x = true -> deepEqual x y = sameValueZero x y.
Proof. destruct x, y; cbn; congruence. Qed.

(** An object deep-equals itself wherever it is read again. *)
Lemma deepEqual_refl x : deepEqual x x = true.
Proof.
  induction x as [| | b | n | s | r ps IH] using jsval_nested_ind; cbn; try reflexivity.
  - now destruct b.
  - apply sameNumber_iff. reflexivity.
  - apply String.eqb_refl.
  - induction IH as [|[k v] ps Hv _ IHps]; [reflexivity|].
    cbn in Hv. now rewrite String.eqb_refl, Hv, IHps.
Qed.

Lemma NoDup_map_eq {A B} (f : A -> B) (l : list A) a b :
  List.NoDup (map f l) -> List.In a l -> List.In b l -> f a = f b -> a = b.
Proof.
  induction l as [|x l IH]; cbn; [tauto|].
  intros Hnd [->|Ha] [->|Hb] Hf; inversion_clear Hnd as [|? ? Hnot Hrest]; auto.
  - exfalso. apply Hnot. rewrite Hf. now apply List.in_map.
  - exfalso. apply Hnot. rewrite <- Hf. now apply List.in_map.
Qed.

Lemma find_sameItems_some items (tbl : list (list jsval * nat)) e :
  List.find (fun e => sameItems (fst e) items) tbl = Some e ->
  List.In e tbl /\ map identityOf (fst e) = map identityOf items.
Proof.
  intros H. apply List.find_some in H as [Hin Hs]. split; [exact Hin|].
  now apply sameItems_iff.
Qed.

Lemma find_sameItems_none items (tbl : list (list jsval * nat)) :
  List.find (fun e => sameItems (fst e) items) tbl = None ->
  forall e, List.In e tbl -> map identityOf (fst e) <> map identityOf items.
Proof.
  intros H e Hin Heq. apply sameItems_iff in Heq.
  pose proof (List.find_none _ _ H e Hin) as Hf. cbn in Hf. congruence.
Qed.

Lemma tuple_interned items st : interned st -> interned (snd (tuple items st)).
Proof.
  intros (Hk & Hr & Hlt). unfold tuple.
  destruct (List.find _ (table st)) as [[its r]|] eqn:Hfind; cbn; [now repeat split|].
  pose proof (find_sameItems_none _ _ Hfind) as Hnone.
  repeat split; cbn.
  - constructor; [|exact Hk]. intros Hin. apply List.in_map_iff in Hin as (e & He & Hin).
    now apply (Hnone e Hin).
  - constructor; [|exact Hr]. intros Hin. apply List.in_map_iff in Hin as (e & He & Hin).
    rewrite List.Forall_forall in Hlt. specialize (Hlt e Hin). lia.
  - constructor; [cbn; lia|].
    eapply List.Forall_impl; [|exact Hlt]. cbn. intros; lia.
Qed.

Lemma reachable_interned st : reachable st -> interned st.
Proof.
  induction 1 as [|items st _ IH]; [|now apply tuple_interned].
  repeat split; cbn; constructor.
Qed.

(** [tuple] answers with a reference the table then holds for these items. *)
Lemma tuple_entry items st :
  exists its,
    List.In (its, fst (tuple items st)) (table (snd (tuple items st)))
    /\ map identityOf its = map identityOf items.
Proof.
  unfold tuple.
  destruct (List.find _ (table st)) as [[its r]|] eqn:Hfind; cbn.
  - apply find_sameItems_some in Hfind as [Hin Heq]. eauto.
  - exists items. split; [now left|reflexivity].
Qed.

(** A later call on a table that holds an entry finds that entry exactly
    when its items have the entry's identities. *)
Lemma tuple_again its k items st :
  interned st -> List.In (its, k) (table st) ->
  fst (tuple items st) = k <-> map identityOf its = map identityOf items.
Proof.
  intros (Hk & Hr & Hlt) Hin. unfold tuple.
  destruct (List.find _ (table st)) as [[its' r]|] eqn:Hfind; cbn.
  - apply find_sameItems_some in Hfind as [Hin' Heq]. cbn in Heq. split.
    + intros ->.
      assert ((its', k) = (its, k)) as [= ->]; [|exact Heq].
      now apply (NoDup_map_eq snd (table st)).
    + intros Heq'.
      assert ((its', r) = (its, k)) as [= _ ->]; [|reflexivity].
      apply (NoDup_map_eq (fun e => map identityOf (fst e)) (table st)); auto.
      cbn. congruence.
  - pose proof (find_sameItems_none _ _ Hfind _ Hin) as Hne. cbn in Hne.
    rewrite List.Forall_forall in Hlt. specialize (Hlt _ Hin). cbn in Hlt.
    split; [lia|tauto].
Qed.

(** A call of [tuple] keeps the entries the table holds. *)
Lemma tuple_keeps items st e :
  List.In e (table st) -> List.In e (table (snd (tuple items st))).
Proof.
  unfold tuple. destruct (List.find _ (table st)) as [[its r]|]; cbn; auto.
Qed.

Lemma tuples_keeps calls st e :
  List.In e (table st) -> List.In e (table (tuples calls st)).
Proof.
  unfold tuples. revert st. induction calls as [|items calls IH]; intros st Hin; cbn.
  - exact Hin.
  - now apply IH, tuple_keeps.
Qed.

Lemma tuples_interned calls st : interned st -> interned (tuples calls st).
Proof.
  unfold tuples. revert st. induction calls as [|items calls IH]; intros st Hint; cbn.
  - exact Hint.
  - now apply IH, tuple_interned.
Qed.

(** C3 (amended). Two keys built by [tuple], however many other keys are
    built between them, are the same cache key exactly when their
    arguments are pairwise identical under SameValueZero: primitives by
    value, objects by reference. *)
Theorem C3_same_key_iff_identical_arguments st xs between ys :
  reachable st ->
  sameCacheKey (fst (tuple xs st))
               (fst (tuple ys (tuples between (snd (tuple xs st)))))
  = sameItems xs ys.
Proof.
  intros Hreach. apply reachable_interned in Hreach.
  pose proof (tuples_interned between _ (tuple_interned xs st Hreach)) as Hint.
  destruct (tuple_entry xs st) as (its & Hin & Heq).
  apply (tuples_keeps between) in Hin.
  pose proof (tuple_again its _ ys _ Hint Hin) as Hagain.
  unfold sameCacheKey.
  destruct (sameItems xs ys) eqn:Hs.
  - apply sameItems_iff in Hs. apply Nat.eqb_eq. symmetry. apply Hagain. congruence.
  - apply Nat.eqb_neq. intros Hk. symmetry in Hk. apply Hagain in Hk.
    assert (sameItems xs ys = true) by (apply sameItems_iff; congruence).
    congruence.
Qed.

(** C3 (counterexample). A market decoded twice gives two deep-equal
    objects, and the two keys built from them are different cache keys. *)
Lemma C3_fresh_objects_counterexample :
  let keyA := tuple [VString "getOpenOrdersAccounts"; decodedMarketA; VBool true] emptyStore in
  let keyB := tuple [VString "getOpenOrdersAccounts"; decodedMarketB; VBool true] (snd keyA) in
  deepEqual decodedMarketA decodedMarketB = true
  /\ sameCacheKey (fst keyA) (fst keyB) = false.
Proof. cbv zeta. split; reflexivity. Qed.

(** Keys built twice from the same strings, numbers and the same object
    hit one slot, also with the keys of two other fetchers built in
    between. *)
Lemma C3_same_key_witness :
  sameCacheKey
    (fst (tuple [VString "getAllMarkets"; VNumber 0; decodedMarketA] emptyStore))
    (fst (tuple [VString "getAllMarkets"; VNumber 0; decodedMarketA]
            (tuples [ [VString "getTokenAccounts"; VNull; VBool false];
                      [VString "getOpenOrdersAccounts"; decodedMarketB; VBool true] ]
               (snd (tuple [VString "getAllMarkets"; VNumber 0; decodedMarketA]
                       emptyStore)))))
  = true.
Proof.
  exact (C3_same_key_iff_identical_arguments emptyStore
           [VString "getAllMarkets"; VNumber 0; decodedMarketA]
           [ [VString "getTokenAccounts"; VNull; VBool false];
             [VString "getOpenOrdersAccounts"; decodedMarketB; VBool true] ]
           [VString "getAllMarkets"; VNumber 0; decodedMarketA] reachable_empty).
Defined.

(** The three keys of that run are three different references, and the
    first is found again after the other two. *)
Example tuple_interleaved :
  let first := tuple [VString "getAllMarkets"; VNumber 0; decodedMarketA] emptyStore in
  let second := tuple [VString "getTokenAccounts"; VNull; VBool false] (snd first) in
  let third :=
    tuple [VString "getOpenOrdersAccounts"; decodedMarketB; VBool true] (snd second) in
  let again := tuple [VString "getAllMarkets"; VNumber 0; decodedMarketA] (snd third) in
  (fst first, fst second, fst third, fst again) = (0, 1, 2, 0)%nat.
Proof. reflexivity. Qed.

(** ** Balances over all markets *)

Lemma balanceOf_addBalance mint k v balances :
  balanceOf mint (addBalance k v balances)
  = if String.eqb k mint
    then Some (default 0 (balanceOf mint balances) + v)%float
    else balanceOf mint balances.
Proof.
  induction balances as [|[k' v'] rest IH]; cbn; [reflexivity|].
  destruct (String.eqb_spec k' k) as [->|Hne]; cbn.
  - now destruct (String.eqb k mint).
  - rewrite IH. destruct (String.eqb_spec k' mint) as [->|]; [|reflexivity].
    now rewrite (proj2 (String.eqb_neq _ _) (not_eq_sym Hne)).
Qed.

Section AllMarketsFacts.

Variable divideBnToNumber : BN -> BN -> number.
Variable parseTokenAccountData : list Byte.byte -> ParsedAccount.

(** A turn of the loop throws on an account that is not convertible, and
    adds the contribution of any other. *)
Lemma walletBalanceStep_convertible mintInfos balances tokenAccount :
  walletBalanceStep divideBnToNumber parseTokenAccountData mintInfos balances tokenAccount
  = if convertible parseTokenAccountData tokenAccount
    then Some (addContribution divideBnToNumber parseTokenAccountData mintInfos
                 balances tokenAccount)
    else None.
Proof.
  unfold walletBalanceStep, convertible, addContribution,
    parsedAccountOf, contribution, BN_of_number, getTokenMultiplierFromDecimals.
  destruct (account tokenAccount) as [info|]; [|reflexivity].
  cbn [mbind option_bind].
  now destruct (Z.abs _ <? 2 ^ 53).
Qed.

Lemma forOf_walletBalanceStep mintInfos tokenAccounts balances :
  forOf (walletBalanceStep divideBnToNumber parseTokenAccountData mintInfos)
        balances tokenAccounts
  = if forallb (convertible parseTokenAccountData) tokenAccounts
    then Some (foldl (addContribution divideBnToNumber parseTokenAccountData mintInfos)
                     balances tokenAccounts)
    else None.
Proof.
  revert balances. induction tokenAccounts as [|a rest IH]; intros balances;
    cbn [forOf forallb foldl]; [reflexivity|].
  rewrite walletBalanceStep_convertible.
  destruct (convertible parseTokenAccountData a); cbn [mbind option_bind andb];
    [apply IH|reflexivity].
Qed.

Lemma addContribution_balanceOf mintInfos mint balances tokenAccount :
  balanceOf mint
    (addContribution divideBnToNumber parseTokenAccountData mintInfos balances tokenAccount)
  = runningTotal divideBnToNumber parseTokenAccountData mintInfos mint
      (balanceOf mint balances) tokenAccount.
Proof.
  unfold addContribution, runningTotal.
  destruct (contribution _ _ _ tokenAccount) as [[k v]|]; [|reflexivity].
  apply balanceOf_addBalance.
Qed.

Lemma foldl_addContribution mintInfos mint tokenAccounts balances :
  balanceOf mint
    (foldl (addContribution divideBnToNumber parseTokenAccountData mintInfos)
           balances tokenAccounts)
  = foldl (runningTotal divideBnToNumber parseTokenAccountData mintInfos mint)
          (balanceOf mint balances) tokenAccounts.
Proof.
  revert balances. induction tokenAccounts as [|a rest IH]; intros balances; cbn;
    [reflexivity|].
  now rewrite IH, addContribution_balanceOf.
Qed.

(** C8 (amended). Each raw amount is converted on its own by one call of
    [divideBnToNumber] over [10^decimals], and the balance
    [useWalletBalancesForAllMarkets] reports for a mint is the binary64 sum
    of the converted amounts of its accounts, added in account order from
    0; it reports balances exactly when every raw amount is below 2^53 in
    magnitude, and throws in [new BN] otherwise. With the conversion as one
    division, 123456789 at 6 decimals is the binary64 number nearest to
    123.456789. *)
Theorem C8_wallet_balance_is_float_sum tokenAccounts mintInfos mint :
  match useWalletBalancesForAllMarkets divideBnToNumber parseTokenAccountData
          tokenAccounts true mintInfos true with
  | Some balances =>
      forallb (convertible parseTokenAccountData) (default [] tokenAccounts) = true
      /\ balanceOf mint balances
         = foldl (runningTotal divideBnToNumber parseTokenAccountData mintInfos mint)
                 None (default [] tokenAccounts)
  | None =>
      forallb (convertible parseTokenAccountData) (default [] tokenAccounts) = false
  end
  /\ scalingDivision 123456789 (getTokenMultiplierFromDecimals 6)
     = 0x1.edd3c07ee0b0bp+6%float.
Proof.
  split; [|reflexivity].
  unfold useWalletBalancesForAllMarkets. cbn [negb orb].
  rewrite forOf_walletBalanceStep.
  destruct (forallb _ (default [] tokenAccounts)); [|reflexivity].
  split; [reflexivity|]. apply foldl_addContribution.
Qed.

End AllMarketsFacts.

(** ** Concrete runs *)

(** A connected wallet with one open-orders account: 2.5 and 1.5 units of
    the base currency, 12.5 and 0 of the quote currency, and a wallet
    holding 123.456789 of the base currency and 12.5 of the quote
    currency. *)
Lemma C4_useBalances_witness :
  exists rowB rowQ,
    useBalances fixtureDexId fixtureValidKey scalingDivision
      (fixtureHooks (Some [fixtureOpenOrders]))
    = Some [rowB; rowQ]
    /\ coin rowB = "Mint 1" /\ coin rowQ = "Mint 2"
    /\ orders rowB = Some 2.5%float /\ unsettled rowB = Some 1.5%float
    /\ orders rowQ = Some 12.5%float /\ unsettled rowQ = Some 0%float
    /\ wallet rowB = Some 0x1.edd3c07ee0b0bp+6%float
    /\ wallet rowQ = Some 12.5%float.
Proof.
  destruct (C4_useBalances_scaled fixtureDexId fixtureValidKey scalingDivision
              (fixtureHooks (Some [fixtureOpenOrders])) fixtureMarket fixtureOpenOrders
              4000000 1500000 1250 0 "Mint 1" "Mint 2"
              eq_refl eq_refl eq_refl eq_refl eq_refl eq_refl eq_refl)
    as (rowB & rowQ & Hrows & HcB & HcQ & HoB & HuB & HoQ & HuQ & HwB & HwQ).
  exists rowB, rowQ.
  split; [exact Hrows|]. split; [exact HcB|]. split; [exact HcQ|].
  split; [exact HoB|]. split; [exact HuB|]. split; [exact HoQ|]. split; [exact HuQ|].
  split; [exact HwB | exact HwQ].
Defined.

(** C4 (counterexample). A custom market of two mints that are neither
    listed nor labelled, with an open-orders account and a wallet for it:
    [useBalances] reports no row at all, so no [orders], [unsettled] or
    [wallet] either. *)
Lemma C4_unnamed_market_counterexample :
  market unlistedHooks = Some unlistedMarket
  /\ marketName <$> useMarket fixtureDexId fixtureValidKey unlistedHooks
     = Some (Some "SRM/USDC")
  /\ useSelectedOpenOrdersAccount unlistedHooks = Some unlistedOpenOrders
  /\ baseTokenTotal unlistedOpenOrders = Some 4000000
  /\ baseTokenFree unlistedOpenOrders = Some 1500000
  /\ useBalances fixtureDexId fixtureValidKey scalingDivision unlistedHooks = Some [].
Proof. repeat split. Qed.

(** The same wallet before it ever traded on the market: the fetcher gave an
    empty list of accounts. *)
Lemma C5_no_account_witness :
  exists rows,
    useBalances fixtureDexId fixtureValidKey scalingDivision (fixtureHooks (Some []))
    = Some rows
    /\ Forall (fun row => orders row = None /\ unsettled row = None) rows
    /\ map coin rows = ["Mint 1"; "Mint 2"].
Proof.
  destruct (C5_no_open_orders_account_absent fixtureDexId fixtureValidKey scalingDivision
              (fixtureHooks (Some [])) eq_refl) as [Hrows Hcoins].
  specialize (Hcoins "Mint 1" "Mint 2" eq_refl).
  destruct (useBalances fixtureDexId fixtureValidKey scalingDivision
              (fixtureHooks (Some []))) as [rows|]; [|discriminate Hcoins].
  exists rows. split; [reflexivity|]. split; [exact (Hrows rows eq_refl)|].
  now injection Hcoins.
Defined.

(** A wallet that is known but not connected. *)
Lemma C6_not_connected_witness :
  getOpenOrdersAccounts false (Some {| publicKey := mint1 |}) (Some fixtureMarket)
    fixtureConnection = Resolved None
  /\ getTokenAccounts false (Some {| publicKey := mint1 |}) fixtureConnection = Resolved None.
Proof.
  destruct (C6_not_connected_resolves_null false (Some {| publicKey := mint1 |})
              (Some fixtureMarket) fixtureConnection (or_introl eq_refl))
    as (Hoo & Hta & _).
  split; [exact Hoo | exact Hta].
Defined.

(** A browser with nothing stored. *)
Lemma C10_empty_storage_witness :
  DEFAULT_MARKET fixtureDexId = None
  /\ getTradePageUrl fixtureDexId (fun _ => None) noNumberText ∅ None = Some "/market/"
  /\ Routes fixtureDexId (fun _ => None) noNumberText ∅ ≫= head
     = Some {| exact := true; path := "/"; target := Redirect "/market/" |}.
Proof.
  exact (C10_default_market_undefined fixtureDexId (fun _ => None) noNumberText ∅ eq_refl).
Defined.

(** [useAllOpenOrdersBalances] converts the four balances of an account one
    by one and adds nothing up: the fixture account gives 1.5 of 4 base units
    free, and 0 of 12.5 quote units. *)
Example useAllOpenOrdersBalances_fixture :
  useAllOpenOrdersBalances scalingDivision (Some [fixtureOpenOrders]) true
    (Some fixtureMintInfos) true
    (Some [ {| lmMarket := fixtureMarket; lmMarketName := "Test";
               lmProgramId := fixtureDexId |} ])
  = [ (toBase58 mint1,
       [ {| obMarket := marketAddress; free := 1.5; total := 4 |} ]);
      (toBase58 mint2,
       [ {| obMarket := marketAddress; free := 0; total := 12.5 |} ]) ]%float.
Proof. vm_compute. reflexivity. Qed.

(** Whatever the conversion, as soon as it gives 0.1 and 0.2 for the two
    accounts below, their reported total is 0.30000000000000004. *)
Lemma wallet_sum_drifts_for_any_conversion divideBnToNumber parseTokenAccountData :
  divideBnToNumber 100000000 1000000000 = 0x1.999999999999ap-4%float ->
  divideBnToNumber 200000000 1000000000 = 0x1.999999999999ap-3%float ->
  useWalletBalancesForAllMarkets divideBnToNumber parseTokenAccountData
    (Some [nativeAccount "Wallet" 100000000; nativeAccount "Wrapped" 200000000])
    true (Some solMintInfos) true
  = Some [(toBase58 WRAPPED_SOL_MINT, 0x1.3333333333334p-2%float)].
Proof.
  intros H1 H2. vm_compute. rewrite H1, H2. reflexivity.
Qed.

(** C8 (counterexample). Two accounts of 100000000 and 200000000 raw units
    at 9 decimals: each converts to the nearest binary64 number (0.1 and
    0.2), the reported balance is their sum 0.30000000000000004, and the
    conversion of the 300000000 units held is 0.3 (0.29999999999999999): the
    additions did accumulate round-off. Nor is a conversion exact: the
    number 100000000 converts to is 7205759403792794 / 2^56, not 1/10. *)
Lemma C8_sum_drifts_counterexample :
  useWalletBalancesForAllMarkets scalingDivision noDecoder
    (Some [nativeAccount "Wallet" 100000000; nativeAccount "Wrapped" 200000000])
    true (Some solMintInfos) true
  = Some [(toBase58 WRAPPED_SOL_MINT, 0x1.3333333333334p-2%float)]
  /\ scalingDivision (100000000 + 200000000) (getTokenMultiplierFromDecimals 9)
     = 0x1.3333333333333p-2%float
  /\ 0x1.3333333333334p-2%float <> 0x1.3333333333333p-2%float
  /\ Prim2SF (scalingDivision 100000000 (getTokenMultiplierFromDecimals 9))
     = S754_finite false 7205759403792794 (-56)
  /\ 10 * 7205759403792794 <> 2 ^ 56.
Proof.
  split; [vm_compute; reflexivity|].
  split; [vm_compute; reflexivity|].
  split; [discriminate|].
  split; [vm_compute; reflexivity | discriminate].
Qed.

(** * Further properties of the hooks *)

(** ** The market list *)

Lemma prefix_spec sub s :
  String.prefix sub s = true <-> exists post, s = sub +:+ post.
Proof.
  revert s. induction sub as [|c sub IH]; intros s.
  - split; [eauto|now destruct s].
  - destruct s as [|d s]; cbn.
    + split; [discriminate|]. intros [post [=]].
    + destruct (Ascii.ascii_dec c d) as [->|Hne].
      * rewrite IH. split; intros [post H]; exists post.
        -- now rewrite H.
        -- now injection H.
      * split; [discriminate|]. intros [post H]. injection H as H _. congruence.
Qed.

(** [includes] finds exactly the substrings. *)
Lemma includes_spec s sub :
  includes s sub = true <-> exists pre post, s = pre +:+ sub +:+ post.
Proof.
  induction s as [|c s IH]; cbn [includes]; rewrite orb_true_iff, prefix_spec.
  - split.
    + intros [[post H]|[=]]. now exists "", post.
    + intros (pre & post & H). left.
      destruct pre; [now exists post|discriminate].
  - rewrite IH. split.
    + intros [[post H]|(pre & post & H)].
      * now exists "", post.
      * exists (String c pre), post. cbn. now rewrite H.
    + intros (pre & post & H). destruct pre as [|d pre].
      * left. now exists post.
      * right. injection H as _ H. now exists pre, post.
Qed.

(** X1. A market is listed exactly when it is a shipped market that is not
    deprecated and whose name occurs nowhere in [REACT_APP_EXCLUDE_MARKETS]:
    the variable excludes by substring, not by list entry. *)
Theorem useMarketsList_lists DEX_ID excluded m :
  List.In m (useMarketsList DEX_ID excluded)
  <-> List.In m (USE_MARKETS DEX_ID)
      /\ MarketInfo.deprecated m = false
      /\ forall text pre post,
           excluded = Some text -> text <> pre +:+ MarketInfo.name m +:+ post.
Proof.
  unfold useMarketsList. rewrite List.filter_In, andb_true_iff, !negb_true_iff.
  split; intros (Hin & H); (split; [exact Hin|]).
  - destruct H as [Hd Hx]. split; [exact Hd|].
    intros text pre post -> Heq.
    assert (includes text (MarketInfo.name m) = true) by (apply includes_spec; eauto).
    congruence.
  - destruct H as [Hd Hx]. split; [exact Hd|].
    destruct excluded as [text|]; [|reflexivity].
    destruct (includes text (MarketInfo.name m)) eqn:E; [|reflexivity].
    apply includes_spec in E as (pre & post & E). now destruct (Hx text pre post).
Qed.

(** An exclusion meant for another market hides the shipped one. *)
Example useMarketsList_substring DEX_ID :
  useMarketsList DEX_ID (Some "Testnet/USDC") = []
  /\ useMarketsList DEX_ID (Some "SRM/USDT") = USE_MARKETS DEX_ID
  /\ useMarketsList DEX_ID None = USE_MARKETS DEX_ID.
Proof. repeat split. Qed.

(** ** The market provider *)

Section MarketProviderFacts.

Variable DEX_ID : PublicKey.
Variable validPublicKey : string -> bool.

Lemma customMarketInfo_wellFormed m :
  customMarketInfo validPublicKey m
  = if wellFormed validPublicKey m
    then Some {| MarketInfo.name := CustomMarketInfo.name m;
                 MarketInfo.address := {| toBase58 := CustomMarketInfo.address m |};
                 MarketInfo.programId := {| toBase58 := CustomMarketInfo.programId m |};
                 MarketInfo.deprecated := false;
                 MarketInfo.baseLabel := CustomMarketInfo.baseLabel m;
                 MarketInfo.quoteLabel := CustomMarketInfo.quoteLabel m |}
    else None.
Proof.
  unfold customMarketInfo, wellFormed, newPublicKey.
  now destruct (validPublicKey (CustomMarketInfo.address m)),
               (validPublicKey (CustomMarketInfo.programId m)).
Qed.

(** [getMarketInfos] throws exactly on a custom market that is not well
    formed. *)
Lemma getMarketInfos_throws customMarkets :
  getMarketInfos DEX_ID validPublicKey customMarkets = None
  <-> forallb (wellFormed validPublicKey) customMarkets = false.
Proof.
  unfold getMarketInfos.
  assert (H : mapM (customMarketInfo validPublicKey) customMarkets = None
              <-> forallb (wellFormed validPublicKey) customMarkets = false).
  { induction customMarkets as [|m rest IH]; cbn; [split; discriminate|].
    rewrite customMarketInfo_wellFormed.
    destruct (wellFormed validPublicKey m); cbn; [|tauto].
    rewrite <- IH. now destruct (mapM _ rest). }
  rewrite <- H. now destruct (mapM _ customMarkets).
Qed.

(** What [getMarketInfos] returns: an entry for each custom market, with
    the address it was registered at, then the shipped markets, none of
    them deprecated. *)
Lemma getMarketInfos_entries customMarkets marketInfos :
  getMarketInfos DEX_ID validPublicKey customMarkets = Some marketInfos ->
  List.Forall (fun info => MarketInfo.deprecated info = false) marketInfos
  /\ forall (test : string -> bool),
       MarketInfo.name
         <$> List.find (fun info => test (toBase58 (MarketInfo.address info))) marketInfos
       = match List.find (fun c => test (CustomMarketInfo.address c)) customMarkets with
         | Some c => Some (CustomMarketInfo.name c)
         | None =>
             MarketInfo.name
               <$> List.find (fun info => test (toBase58 (MarketInfo.address info)))
                     (USE_MARKETS DEX_ID)
         end.
Proof.
  unfold getMarketInfos.
  destruct (mapM _ customMarkets) as [infos|] eqn:Hinfos; [|discriminate].
  cbn [mbind option_bind]. intros [= <-].
  revert infos Hinfos. induction customMarkets as [|m rest IH]; cbn; intros infos.
  - intros [= <-]. split; [repeat constructor|]. reflexivity.
  - rewrite customMarketInfo_wellFormed.
    destruct (wellFormed validPublicKey m); [|discriminate]. cbn [mbind option_bind].
    destruct (mapM _ rest) as [infos'|]; [|discriminate]. cbn. intros [= <-].
    destruct (IH infos' eq_refl) as [Hdep Hfind].
    split; [now constructor|].
    intros test. cbn. destruct (test (CustomMarketInfo.address m)); [reflexivity|].
    apply Hfind.
Qed.

(** X2. The first effect of [MarketProvider] never calls
    [setMarketAddress]: whatever address and custom markets it is given, the
    market it finds is not deprecated. All that can happen is that the
    render throws before, on an address or a custom market [new PublicKey]
    rejects. *)
Theorem switchFromDeprecated_never marketAddress customMarkets :
  switchFromDeprecated DEX_ID validPublicKey marketAddress customMarkets
  = providerAddress validPublicKey marketAddress ≫= fun _ =>
    getMarketInfos DEX_ID validPublicKey customMarkets ≫= fun _ => Some None.
Proof.
  unfold switchFromDeprecated, providerMarketInfo.
  destruct (providerAddress validPublicKey marketAddress) as [address|]; [|reflexivity].
  cbn [mbind option_bind].
  destruct (getMarketInfos DEX_ID validPublicKey customMarkets) as [marketInfos|] eqn:Hinfos;
    [|reflexivity].
  cbn [mbind option_bind]. destruct address as [address|]; [|reflexivity].
  cbn [mbind option_bind].
  destruct (List.find _ _) as [info|] eqn:Hfind; [|reflexivity].
  apply List.find_some in Hfind as [Hin _].
  destruct (getMarketInfos_entries _ _ Hinfos) as [Hall _].
  rewrite List.Forall_forall in Hall. now rewrite (Hall info Hin).
Qed.

(** X3. The second effect of [MarketProvider] loads a market only at the
    address it was given, and only if that address is one of
    [getMarketInfos]; with no address, or an empty one, it loads nothing and
    notifies, unless the render threw in [getMarketInfos]. *)
Theorem loadMarketEffect_loads_registered market marketAddress customMarkets :
  (forall address,
     loadMarketEffect DEX_ID validPublicKey market marketAddress customMarkets
     = Some (LoadMarket address) ->
     marketAddress = Some (toBase58 address)
     /\ exists marketInfos,
          getMarketInfos DEX_ID validPublicKey customMarkets = Some marketInfos
          /\ List.In address (map MarketInfo.address marketInfos))
  /\ (marketAddress = None \/ marketAddress = Some "" ->
      loadMarketEffect DEX_ID validPublicKey market marketAddress customMarkets
      = getMarketInfos DEX_ID validPublicKey customMarkets ≫= fun _ =>
        Some NotifySelectMarket).
Proof.
  split.
  - intros address. unfold loadMarketEffect, providerMarketInfo, providerAddress.
    destruct (getMarketInfos DEX_ID validPublicKey customMarkets) as [marketInfos|];
      [|now destruct marketAddress as [text|];
          [destruct (truthy text); [destruct (newPublicKey validPublicKey text)|]|]].
    destruct marketAddress as [text|]; [|now destruct market].
    destruct (truthy text); [|now destruct market].
    unfold newPublicKey. destruct (validPublicKey text); [|discriminate]. cbn.
    destruct (List.find _ _) as [info|] eqn:Hfind; [|now destruct market].
    apply List.find_some in Hfind as [Hin Heq].
    unfold equals in Heq. cbn in Heq. apply String.eqb_eq in Heq.
    assert (Hload : MarketInfo.address info = address ->
                    Some text = Some (toBase58 address)
                    /\ exists marketInfos',
                         Some marketInfos = Some marketInfos'
                         /\ List.In address (map MarketInfo.address marketInfos')).
    { intros <-. split; [congruence|]. exists marketInfos.
      split; [reflexivity|]. now apply List.in_map. }
    destruct market as [m|]; [destruct (equals _ _)|]; intros [= H];
      try discriminate; now apply Hload.
  - intros [-> | ->]; unfold loadMarketEffect, providerMarketInfo; cbn;
      destruct (getMarketInfos DEX_ID validPublicKey customMarkets); cbn;
      try reflexivity; now destruct market.
Qed.

(** X4. [getMarketDetails] throws on a loaded market when a custom market
    is not well formed. Otherwise a custom market registered at an address
    takes precedence over the shipped market at that address: the market is
    named after the first custom market with its address, and after the
    shipped list only when there is none. *)
Theorem getMarketDetails_custom_first market customMarkets :
  marketName <$> getMarketDetails DEX_ID validPublicKey (Some market) customMarkets
  = if forallb (wellFormed validPublicKey) customMarkets
    then Some match List.find (fun c => String.eqb (CustomMarketInfo.address c)
                                                   (toBase58 (address market)))
                              customMarkets with
              | Some c => Some (CustomMarketInfo.name c)
              | None =>
                  if equals marketAddress (address market) then Some "Test" else None
              end
    else None.
Proof.
  cbn [getMarketDetails].
  destruct (getMarketInfos DEX_ID validPublicKey customMarkets) as [marketInfos|] eqn:Hinfos.
  - destruct (forallb _ customMarkets) eqn:Hwf;
      [|apply getMarketInfos_throws in Hwf; congruence].
    cbn [mbind option_bind fmap option_fmap option_map marketName]. f_equal.
    destruct (getMarketInfos_entries _ _ Hinfos) as [_ Hfind].
    specialize (Hfind (fun text => String.eqb text (toBase58 (address market)))).
    cbn beta in Hfind. unfold equals. rewrite Hfind.
    destruct (List.find _ customMarkets); [reflexivity|].
    unfold USE_MARKETS. cbn [List.find MarketInfo.address].
    now destruct (String.eqb (toBase58 marketAddress) (toBase58 (address market))).
  - apply getMarketInfos_throws in Hinfos. now rewrite Hinfos.
Qed.

End MarketProviderFacts.

(** ** The selected token account *)

Lemma filter_head_find {A} (f : A -> bool) (l : list A) :
  List.filter f l !! 0%nat = List.find f l.
Proof.
  induction l as [|x l IH]; [reflexivity|]. cbn. now destruct (f x).
Qed.

(** [find] returns the first element that passes the test. *)
Lemma find_first {A} (f : A -> bool) (l : list A) (a : A) :
  List.find f l = Some a
  <-> exists pre post,
        l = pre ++ a :: post /\ f a = true /\ List.Forall (fun b => f b = false) pre.
Proof.
  induction l as [|x l IH]; cbn.
  - split; [discriminate|]. intros (pre & post & H & _). now destruct pre.
  - destruct (f x) eqn:Hx.
    + split.
      * intros [= ->]. exists [], l. auto.
      * intros (pre & post & H & Ha & Hpre). destruct pre as [|y pre].
        -- now injection H as ->.
        -- injection H as -> _. apply List.Forall_inv in Hpre. congruence.
    + rewrite IH. split.
      * intros (pre & post & -> & Ha & Hpre). exists (x :: pre), post. auto.
      * intros (pre & post & H & Ha & Hpre). destruct pre as [|y pre].
        -- injection H as -> _. congruence.
        -- injection H as _ ->. apply List.Forall_inv_tail in Hpre. eauto.
Qed.

(** The test of the filter of [getSelectedTokenAccountForMint] decides
    [selectable]. *)
Lemma selectable_test mint selectedPubKey a :
  equals mint (effectiveMint a)
  && (negb (truthy selectedPubKey)
      || match selectedPubKey with
         | Some s => String.eqb s (toBase58 (pubkey a))
         | None => false
         end) = true
  <-> selectable mint selectedPubKey a.
Proof.
  unfold selectable, equals. rewrite andb_true_iff, orb_true_iff, String.eqb_eq.
  destruct selectedPubKey as [s|].
  - change (truthy (Some s)) with (negb (String.eqb s "")).
    rewrite negb_involutive, !String.eqb_eq. split.
    + intros [Hm [Hs|Hs]]; (split; [now symmetry|]); intros ? [= <-] ?; congruence.
    + intros [Hm Hs]. split; [now symmetry|].
      destruct (String.eqb_spec s ""); [now left|right]. symmetry. now apply Hs.
  - split; [intros [Hm _]|intros [Hm _]]; (split; [now symmetry|]); auto; discriminate.
Qed.

(** X5. [getSelectedTokenAccountForMint] returns the first account that
    holds the mint and, when a non-empty selection is stored, is the
    selected one: every account before it fails that test. *)
Theorem getSelectedTokenAccountForMint_first accounts mint selectedPubKey a :
  getSelectedTokenAccountForMint (Some accounts) (Some mint) selectedPubKey = Some a
  <-> exists pre post,
        accounts = pre ++ a :: post
        /\ selectable mint selectedPubKey a
        /\ List.Forall (fun b => ~ selectable mint selectedPubKey b) pre.
Proof.
  unfold getSelectedTokenAccountForMint. rewrite filter_head_find, find_first.
  split; intros (pre & post & H & Ha & Hpre); exists pre, post;
    (split; [exact H|]); rewrite selectable_test in *; (split; [exact Ha|]);
    eapply List.Forall_impl; try exact Hpre; cbn; intros b Hb.
  - rewrite <- selectable_test. congruence.
  - rewrite <- selectable_test in Hb. now destruct (_ && _).
Qed.

(** X6. A stored selection that names none of the wallet's accounts hides
    the balance: nothing is returned, even when the wallet holds accounts of
    the mint. *)
Theorem getSelectedTokenAccountForMint_stale accounts mint (selection : string) :
  selection <> "" ->
  (forall a, List.In a accounts -> toBase58 (pubkey a) <> selection) ->
  getSelectedTokenAccountForMint (Some accounts) (Some mint) (Some selection) = None.
Proof.
  intros Hne Hstale.
  unfold getSelectedTokenAccountForMint. rewrite filter_head_find.
  destruct (List.find _ accounts) as [a|] eqn:E; [|reflexivity].
  apply List.find_some in E as [Hin Ha].
  apply selectable_test in Ha as [_ Hsel].
  destruct (Hstale a Hin). now apply Hsel.
Qed.

(** The fixture wallet after its selected account was closed. *)
Lemma getSelectedTokenAccountForMint_stale_witness :
  getSelectedTokenAccountForMint (Some [fixtureBaseAccount]) (Some mint1)
    (Some "ClosedAccount") = None.
Proof.
  apply (getSelectedTokenAccountForMint_stale [fixtureBaseAccount] mint1 "ClosedAccount").
  - discriminate.
  - intros a [<-|[]]. discriminate.
Defined.

(** ** Trades and the mark price *)

(** The mark price reads the trades through the price of the first one. *)
Lemma markPrice_lastTradePrice orderbook trades trades' :
  lastTradePrice trades = lastTradePrice trades' ->
  markPrice orderbook trades = markPrice orderbook trades'.
Proof.
  intros H. unfold markPrice.
  change (match trades with Some (t :: _) => Some (fillPrice t) | _ => None end)
    with (lastTradePrice trades).
  change (match trades' with Some (t :: _) => Some (fillPrice t) | _ => None end)
    with (lastTradePrice trades').
  now rewrite H.
Qed.

Lemma lastTradePrice_useTrades fills :
  lastTradePrice (useTrades (Some fills)) = fillPrice <$> lastMakerFill fills.
Proof.
  unfold lastMakerFill. induction fills as [|t fills IH]; [reflexivity|].
  cbn [useTrades List.find] in *. rewrite filter_cons.
  destruct (maker t) eqn:Ht.
  - rewrite decide_True by reflexivity. reflexivity.
  - rewrite decide_False by discriminate. exact IH.
Qed.

(** X7. Taker fills never move the mark price: through [useTrades] the last
    trade price is the price of the most recent maker fill, and the mark
    price is the one of a history holding that fill alone. *)
Theorem markPrice_last_maker_fill orderbook fills :
  lastTradePrice (useTrades (Some fills)) = fillPrice <$> lastMakerFill fills
  /\ markPrice orderbook (useTrades (Some fills))
     = markPrice orderbook (Some (option_list (lastMakerFill fills))).
Proof.
  split; [apply lastTradePrice_useTrades|].
  apply markPrice_lastTradePrice. rewrite lastTradePrice_useTrades.
  now destruct (lastMakerFill fills).
Qed.

(** X8. [useTrades] reports the maker fills of the event queue, in their
    order, each with its price and its open-orders account and with the
    opposite side; so applying it twice gives back the maker fills as the
    event queue has them. *)
Theorem useTrades_flips_maker_fills :
  (forall fills,
     exists reported,
       useTrades (Some fills) = Some reported
       /\ List.Forall2
            (fun trade fill =>
               maker fill = true /\ maker trade = true
               /\ side trade <> side fill
               /\ fillPrice trade = fillPrice fill
               /\ fillOpenOrders trade = fillOpenOrders fill)
            reported (List.filter maker fills))
  /\ forall trades, useTrades (useTrades trades) = List.filter maker <$> trades.
Proof.
  split.
  - intros fills. eexists. split; [reflexivity|].
    induction fills as [|t fills IH]; [constructor|].
    cbn [List.filter]. rewrite filter_cons. destruct (maker t) eqn:Ht.
    + rewrite decide_True by reflexivity. cbn [map]. constructor; [|exact IH].
      cbn. repeat split; try assumption. now destruct (side t).
    + rewrite decide_False by congruence. exact IH.
  - intros [fills|]; [|reflexivity]. cbn [useTrades fmap option_fmap option_map].
    f_equal. induction fills as [|t fills IH]; [reflexivity|].
    cbn [List.filter]. rewrite filter_cons. destruct (maker t) eqn:Ht.
    + rewrite decide_True by reflexivity. cbn [map]. rewrite filter_cons. cbn [maker].
      rewrite decide_True by exact Ht. cbn [map]. rewrite IH. f_equal.
      destruct t as [m [] p o]; cbn in *; now subst.
    + rewrite decide_False by congruence. exact IH.
Qed.

(** A sale filled as maker is reported as a buy, and the taker side of the
    same trade is not reported. *)
Example useTrades_fixture :
  useTrades
    (Some [ {| maker := false; side := buy; fillPrice := 10;
               fillOpenOrders := {| toBase58 := "Taker" |} |};
            {| maker := true; side := sell; fillPrice := 10;
               fillOpenOrders := {| toBase58 := "Maker" |} |} ])
  = Some [ {| maker := true; side := buy; fillPrice := 10;
              fillOpenOrders := {| toBase58 := "Maker" |} |} ].
Proof. reflexivity. Qed.

(** With both best prices and the last trade price truthy, the mark price
    is the middle of the three. *)
Lemma markPrice_median3 orderbook trades bestBid bidSize bidsRest
    bestAsk askSize asksRest last :
  bids orderbook = (bestBid, bidSize) :: bidsRest ->
  asks orderbook = (bestAsk, askSize) :: asksRest ->
  truthy bestBid = true -> truthy bestAsk = true ->
  lastTradePrice trades = Some last -> truthy last = true ->
  markPrice orderbook trades = Some (median3 bestBid bestAsk last).
Proof.
  intros Eb Ea Hb Ha Hlast Hl. unfold markPrice. rewrite Eb, Ea. cbn [fst].
  rewrite Hb, Ha. cbn [andb].
  destruct trades as [[|t ts]|]; try discriminate.
  injection Hlast as ->. rewrite Hl.
  apply sortedMiddle_median3; now apply truthy_not_nan.
Qed.

(** X9. On a book that is not crossed, a last trade pulls the mark price no
    further than the spread: the mark price lies between best bid and best
    ask, it is the last trade price when that lies strictly inside, the best
    bid when the trade was below it and the best ask when it was above. *)
Theorem markPrice_within_spread orderbook trades bestBid bidSize bidsRest
    bestAsk askSize asksRest last :
  bids orderbook = (bestBid, bidSize) :: bidsRest ->
  asks orderbook = (bestAsk, askSize) :: asksRest ->
  truthy bestBid = true -> truthy bestAsk = true ->
  lastTradePrice trades = Some last -> truthy last = true ->
  PrimFloat.leb bestBid bestAsk = true ->
  exists mark,
    markPrice orderbook trades = Some mark
    /\ PrimFloat.leb bestBid mark = true /\ PrimFloat.leb mark bestAsk = true
    /\ (PrimFloat.ltb bestBid last = true -> PrimFloat.ltb last bestAsk = true ->
        mark = last)
    /\ (PrimFloat.ltb last bestBid = true -> mark = bestBid)
    /\ (PrimFloat.ltb bestAsk last = true -> mark = bestAsk).
Proof.
  intros Eb Ea Hb Ha Hlast Hl Hspread.
  exists (median3 bestBid bestAsk last).
  split; [now apply (markPrice_median3 _ _ _ _ _ _ _ _ _ Eb Ea)|].
  apply truthy_not_nan in Hb, Ha, Hl.
  unfold median3. rewrite !(leb_ord _ _ Hb Ha), !(leb_ord _ _ Ha Hl), !(leb_ord _ _ Hb Hl).
  rewrite (leb_ord _ _ Hb Ha) in Hspread. apply Z.leb_le in Hspread.
  rewrite (ltb_ord _ _ Hb Hl), (ltb_ord _ _ Hl Ha), (ltb_ord _ _ Hl Hb), (ltb_ord _ _ Ha Hl).
  rewrite !Z.ltb_lt.
  destruct (Z.leb_spec (ord (Prim2SF bestBid)) (ord (Prim2SF bestAsk))); [|lia].
  destruct (Z.leb_spec (ord (Prim2SF bestAsk)) (ord (Prim2SF last)));
    [|destruct (Z.leb_spec (ord (Prim2SF bestBid)) (ord (Prim2SF last)))];
    rewrite ?(leb_ord _ _ Hb Ha), ?(leb_ord _ _ Ha Ha), ?(leb_ord _ _ Hb Hb),
      ?(leb_ord _ _ Hb Hl), ?(leb_ord _ _ Hl Ha), ?Z.leb_le;
    repeat split; try lia; try reflexivity.
Qed.

(** A trade at 12 against the fixture book, whose spread is 10 to 11. *)
Lemma markPrice_within_spread_witness :
  exists mark,
    markPrice fixtureBook (Some [tradeAt 12]) = Some mark
    /\ PrimFloat.leb 10 mark = true /\ PrimFloat.leb mark 11 = true
    /\ (PrimFloat.ltb 10 12 = true -> PrimFloat.ltb 12 11 = true -> mark = 12%float)
    /\ (PrimFloat.ltb 12 10 = true -> mark = 10%float)
    /\ (PrimFloat.ltb 11 12 = true -> mark = 11%float).
Proof.
  apply (markPrice_within_spread fixtureBook (Some [tradeAt 12])
           10%float 1%float [(9, 2)%float] 11%float 1%float [(12, 3)%float] 12%float);
    reflexivity.
Defined.

(** ** Expected fill price on an empty side *)

Lemma div_nan_r x : (x / nan)%float = nan.
Proof.
  apply Prim2SF_inj. rewrite div_spec, Prim2SF_nan.
  unfold SF64div, SFdiv. now destruct (Prim2SF x).
Qed.

Lemma is_nan_Prim2SF x : is_nan x = true -> x = nan.
Proof.
  unfold is_nan. rewrite FloatAxioms.eqb_spec. intros H.
  apply Prim2SF_inj. rewrite Prim2SF_nan.
  destruct (Prim2SF x) as [[]|[]| |s m e]; try discriminate; try reflexivity.
  now rewrite SFeqb_finite_refl in H.
Qed.

(** A number that is neither NaN, nor below 0, nor above 0, is a zero. *)
Lemma neither_side_zero x :
  is_nan x = false -> PrimFloat.ltb x 0 = false -> PrimFloat.ltb 0 x = false ->
  exists s, Prim2SF x = S754_zero s.
Proof.
  intros Hnan Hlt Hgt. apply not_nan_Prim2SF in Hnan.
  rewrite ltb_spec in Hlt, Hgt. change (Prim2SF 0%float) with (S754_zero false) in *.
  destruct (Prim2SF x) as [s|[]| |[] m e]; try discriminate; try congruence.
  now exists s.
Qed.

Lemma zero_div_zero x s : Prim2SF x = S754_zero s -> (0 / x)%float = nan.
Proof.
  intros H. apply Prim2SF_inj. rewrite div_spec, H. now destruct s.
Qed.

(** Nothing can be averaged over nothing spent. *)
Lemma zero_div_min_zero cost :
  PrimFloat.ltb cost 0 = false -> (0 / Math_min cost 0)%float = nan.
Proof.
  intros Hlt. unfold Math_min. rewrite Hlt.
  destruct (is_nan cost) eqn:Hnan; cbn [orb].
  - apply div_nan_r.
  - change (is_nan 0) with false. cbn [orb].
    destruct (PrimFloat.ltb 0 cost) eqn:Hgt; [reflexivity|].
    destruct (neither_side_zero cost Hnan Hlt Hgt) as [s Hs].
    destruct (classify cost); try reflexivity; now apply (zero_div_zero cost s).
Qed.

(** X10. On an empty book side [getExpectedFillPrice] returns NaN for every
    cost that is not negative, a cost of 0 or NaN included, and whatever
    the tick decimals: the average is taken over the 0 spent. *)
Theorem getExpectedFillPrice_empty_side orderbook cost asks tickSizeDecimals :
  getL2 orderbook 1000 asks = [] ->
  PrimFloat.ltb cost 0 = false ->
  getExpectedFillPrice orderbook cost asks tickSizeDecimals = nan.
Proof.
  intros Hempty Hcost. unfold getExpectedFillPrice. rewrite Hempty. cbn [fillLoop].
  rewrite (zero_div_min_zero cost Hcost).
  destruct tickSizeDecimals as [d|]; [|reflexivity].
  destruct (negb (d =? 0)%nat); [apply floorToDecimal_nan | reflexivity].
Qed.

(** Buying for 15 against a book without asks. *)
Lemma getExpectedFillPrice_empty_side_witness :
  getExpectedFillPrice (bookOf fixtureAsks []) 15 true (Some 2%nat) = nan.
Proof.
  apply (getExpectedFillPrice_empty_side (bookOf fixtureAsks []) 15 true (Some 2%nat));
    reflexivity.
Defined.

(** ** The rows of the balances table *)

Lemma length_append (a b : string) :
  String.length (a +:+ b) = (String.length a + String.length b)%nat.
Proof.
  induction a as [|c a IH]; [reflexivity|].
  change (String c a +:+ b) with (String c (a +:+ b)). cbn. now rewrite IH.
Qed.

Lemma append_same_length (a b c d : string) :
  String.length a = String.length c -> a +:+ b = c +:+ d -> a = c /\ b = d.
Proof.
  revert c. induction a as [|x a IH]; intros [|y c]; try discriminate.
  - auto.
  - change (String x a +:+ b) with (String x (a +:+ b)).
    change (String y c +:+ d) with (String y (c +:+ d)).
    intros [= Hlen] [= -> H]. destruct (IH c Hlen H) as [-> ->]. auto.
Qed.

(** The keys [b + q + b] and [q + b + q] coincide only for one name. *)
Lemma row_keys_equal (b q : string) :
  b +:+ q +:+ b = q +:+ b +:+ q <-> b = q.
Proof.
  split; [|now intros ->]. intros H.
  apply append_same_length in H; [tauto|].
  apply (f_equal String.length) in H. rewrite !length_append in H. lia.
Qed.




Section BalanceTable.

Variable DEX_ID : PublicKey.
Variable validPublicKey : string -> bool.
Variable divideBnToNumber : BN -> BN -> number.

(** X11. The two rows of [useBalances] carry distinct keys unless the base
    and the quote currency go by one name. *)
Theorem useBalances_keys h b q :
  knownCurrencies DEX_ID validPublicKey h = Some (b, q) ->
  exists rowB rowQ,
    useBalances DEX_ID validPublicKey divideBnToNumber h = Some [rowB; rowQ]
    /\ (key rowB = key rowQ <-> b = q).
Proof.
  unfold knownCurrencies, useBalances.
  destruct (useMarket DEX_ID validPublicKey h) as [details|]; [|discriminate].
  cbn [mbind option_bind].
  destruct (baseCurrency details) as [b'|]; [|discriminate].
  destruct (quoteCurrency details) as [q'|]; [|discriminate].
  destruct (_ || _); [discriminate|]. intros [= -> ->].
  do 2 eexists. split; [reflexivity|]. cbn [key]. apply row_keys_equal.
Qed.



End BalanceTable.

(** A custom market registered under a text that is no key takes the
    whole table down, whatever market is loaded. *)
Example useBalances_malformed_custom_market :
  let h :=
    {| market := Some fixtureMarket;
       customMarkets :=
         [ {| CustomMarketInfo.address := "not a key";
              CustomMarketInfo.name := "Mine";
              CustomMarketInfo.programId := toBase58 (address unlistedMarket);
              CustomMarketInfo.quoteLabel := None;
              CustomMarketInfo.baseLabel := None |} ];
       tokenAccounts := None;
       selectedTokenAccounts := ∅;
       useAccountInfo := fixtureAccountInfo;
       openOrdersAccounts := None |} in
  useBalances fixtureDexId fixtureValidKey scalingDivision h = None
  /\ useBalances fixtureDexId fixtureValidKey scalingDivision
       (fixtureHooks None) <> None.
Proof. cbv zeta. split; [reflexivity|discriminate]. Qed.

(** The fixture market trades "Mint 1" against "Mint 2". *)
Lemma useBalances_keys_witness :
  exists rowB rowQ,
    useBalances fixtureDexId fixtureValidKey scalingDivision (fixtureHooks None)
    = Some [rowB; rowQ]
    /\ (key rowB = key rowQ <-> "Mint 1" = "Mint 2").
Proof.
  apply (useBalances_keys fixtureDexId fixtureValidKey scalingDivision (fixtureHooks None)
           "Mint 1" "Mint 2").
  reflexivity.
Defined.

(** ** The trade page URL and the route table *)

Section PrintingFacts.

Variable Number_toString : number -> string.

(** An object prints unless it has a member [toString]. *)
Lemma ToString_object members :
  ToString Number_toString (JObject members) = None
  <-> List.In "toString" (map fst members).
Proof.
  cbn [ToString]. destruct (existsb _ _) eqn:E.
  - apply existsb_exists in E as (k & Hin & Hk). apply String.eqb_eq in Hk. subst k.
    tauto.
  - split; [discriminate|]. intros Hin.
    assert (existsb (String.eqb "toString") (map fst members) = true); [|congruence].
    apply existsb_exists. exists "toString". split; [exact Hin|apply String.eqb_refl].
Qed.

(** An array prints its first element, then the others after a comma. *)
Lemma ToString_array_cons item rest :
  ToString Number_toString (JArray (item :: rest))
  = first ← match item with
            | JNull => Some ""
            | _ => ToString Number_toString item
            end;
    match rest with
    | [] => Some first
    | _ => others ← ToString Number_toString (JArray rest);
           Some (first +:+ "," +:+ others)
    end.
Proof. reflexivity. Qed.

(** An array fails to print exactly when one of its elements does. *)
Lemma ToString_array items :
  ToString Number_toString (JArray items) = None
  <-> exists item, List.In item items /\ ToString Number_toString item = None.
Proof.
  induction items as [|item rest IH].
  - split; [discriminate|]. intros (? & [] & _).
  - rewrite ToString_array_cons.
    assert (Hitem : match item with
                    | JNull => Some ""
                    | _ => ToString Number_toString item
                    end = None
                    <-> ToString Number_toString item = None).
    { destruct item; try tauto. split; discriminate. }
    destruct (match item with JNull => Some "" | _ => _ end) as [first|] eqn:Hfirst;
      cbn [mbind option_bind].
    + assert (Hsome : ToString Number_toString item <> None).
      { intros Hnone. apply Hitem in Hnone. discriminate. }
      destruct rest as [|item' rest'].
      * split; [discriminate|]. intros (x & [<-|[]] & Hx). contradiction.
      * destruct (ToString Number_toString (JArray (item' :: rest'))) as [others|] eqn:Hrest;
          cbn [mbind option_bind].
        -- split; [discriminate|]. intros (x & [<-|Hin] & Hx); [contradiction|].
           assert (Some others = None) by (apply IH; eauto). discriminate.
        -- split; [|reflexivity]. intros _.
           destruct (proj1 IH eq_refl) as (x & Hin & Hx). exists x. split; [now right|auto].
    + split; [|reflexivity]. intros _. exists item. split; [now left|]. now apply Hitem.
Qed.

(** The template literal throws exactly on the unprintable values. *)
Lemma ToString_throws value :
  ToString Number_toString value = None <-> unprintable value.
Proof.
  induction value as [| | | |items IH|members _] using JSONValue_nested_ind;
    try (split; [discriminate|inversion 1]).
  - rewrite ToString_array. rewrite List.Forall_forall in IH. split.
    + intros (item & Hin & Hnone). apply (unprintable_array items item Hin).
      now apply IH.
    + inversion 1 as [|? item Hin Hitem]; subst. exists item. split; [exact Hin|].
      now apply IH.
  - rewrite ToString_object. split; [apply unprintable_object|now inversion 1].
Qed.

End PrintingFacts.

Section TradePageFacts.

Variable DEX_ID : PublicKey.
Variable JSON_parse : string -> option JSONValue.
Variable Number_toString : number -> string.

(** Without an address of its own [getTradePageUrl] goes by the stored
    preference: the text of the parsed value when that is truthy, and the
    empty address when it is falsy. *)
Lemma getTradePageUrl_stored localStorage marketAddress :
  truthy marketAddress = false ->
  getTradePageUrl DEX_ID JSON_parse Number_toString localStorage marketAddress
  = match localStorage !! "marketAddress" with
    | Some saved =>
        if truthy saved then
          value ← JSON_parse saved;
          text ← (if truthy value then ToString Number_toString value else Some "");
          Some ("/market/" +:+ text)
        else Some "/market/"
    | None => Some "/market/"
    end.
Proof.
  intros Harg. unfold getTradePageUrl. rewrite Harg. cbn [negb].
  assert (Hfalsy : forall a : option string, truthy a = false ->
            or_else
              (or_else (JString <$> a)
                 ((fun m => JString (toBase58 (MarketInfo.address m)))
                    <$> DEFAULT_MARKET DEX_ID))
              (Some (JString "")) = Some (JString "")).
  { intros [a|] Ha; [|reflexivity].
    change (truthy (Some a)) with (negb (String.eqb a "")) in Ha.
    apply negb_false_iff, String.eqb_eq in Ha. now subst a. }
  destruct (localStorage !! "marketAddress") as [saved|] eqn:Hsaved.
  - change (truthy (Some saved)) with (truthy saved).
    destruct (truthy saved) eqn:Ht.
    + cbn [mbind option_bind fmap option_fmap option_map].
      destruct (JSON_parse saved) as [value|]; [|reflexivity].
      cbn [mbind option_bind fmap option_fmap option_map].
      unfold or_else. change (truthy (Some value)) with (truthy value).
      destruct (truthy value) eqn:Hv.
      * change (truthy (Some value)) with (truthy value). now rewrite Hv.
      * reflexivity.
    + cbn [mbind option_bind]. cbv zeta. now rewrite (Hfalsy _ Harg).
  - cbn [truthy option_truthy mbind option_bind]. cbv zeta. now rewrite (Hfalsy _ Harg).
Qed.

(** X13. [getTradePageUrl] throws exactly when it is given no address while
    the stored 'marketAddress' preference is a non-empty text that
    [JSON.parse] rejects, or that parses to a value the template literal
    cannot print: an object with a member [toString], or an array that
    holds one. The route table, which calls it without an address, fails
    to build in exactly that case. *)
Theorem getTradePageUrl_throws_iff localStorage marketAddress :
  (getTradePageUrl DEX_ID JSON_parse Number_toString localStorage marketAddress = None
   <-> truthy marketAddress = false
       /\ exists saved,
            localStorage !! "marketAddress" = Some saved /\ saved <> ""
            /\ (JSON_parse saved = None
                \/ exists value, JSON_parse saved = Some value /\ unprintable value))
  /\ (Routes DEX_ID JSON_parse Number_toString localStorage = None
      <-> exists saved,
            localStorage !! "marketAddress" = Some saved /\ saved <> ""
            /\ (JSON_parse saved = None
                \/ exists value, JSON_parse saved = Some value /\ unprintable value)).
Proof.
  assert (Htruthy : forall value, unprintable value -> truthy value = true)
    by (now inversion 1).
  assert (Hstored : forall arg, truthy arg = false ->
            getTradePageUrl DEX_ID JSON_parse Number_toString localStorage arg = None
            <-> exists saved,
                  localStorage !! "marketAddress" = Some saved /\ saved <> ""
                  /\ (JSON_parse saved = None
                      \/ exists value,
                           JSON_parse saved = Some value /\ unprintable value)).
  { intros arg Harg. rewrite (getTradePageUrl_stored _ _ Harg).
    destruct (localStorage !! "marketAddress") as [saved|].
    - change (truthy saved) with (negb (String.eqb saved "")).
      destruct (String.eqb_spec saved "") as [->|Hne]; cbn [negb].
      + split; [discriminate|]. intros (? & [= <-] & ? & _). congruence.
      + destruct (JSON_parse saved) as [value|] eqn:Hp; cbn [mbind option_bind].
        * destruct (truthy value) eqn:Hv;
            [destruct (ToString Number_toString value) eqn:Hs|];
            cbn [mbind option_bind].
          -- split; [discriminate|].
             intros (? & [= <-] & _ & [?|(? & ? & Hu)]); [congruence|].
             apply (ToString_throws Number_toString) in Hu. congruence.
          -- split; [|reflexivity]. intros _. exists saved.
             apply (ToString_throws Number_toString) in Hs. eauto 10.
          -- split; [discriminate|].
             intros (? & [= <-] & _ & [?|(? & ? & Hu)]); [congruence|].
             apply Htruthy in Hu. congruence.
        * split; [eauto 10|reflexivity].
    - split; [discriminate|]. intros (? & [=] & _). }
  split.
  - destruct (truthy marketAddress) eqn:Harg.
    + split; [|intros [[=] _]].
      unfold getTradePageUrl. rewrite Harg. discriminate.
    + rewrite (Hstored _ Harg). tauto.
  - rewrite <- (Hstored None eq_refl). unfold Routes.
    now destruct (getTradePageUrl DEX_ID JSON_parse Number_toString localStorage None).
Qed.

(** X14. With no address given, a stored preference that parses decides the
    URL and the redirect of the root route, by the text of the parsed value
    when that is truthy and by the empty address when it is falsy; an
    address that is given wins over it. *)
Theorem getTradePageUrl_stored_preference localStorage saved value parsed :
  localStorage !! "marketAddress" = Some saved ->
  saved <> "" ->
  JSON_parse saved = Some value ->
  (if truthy value then ToString Number_toString value else Some "") = Some parsed ->
  getTradePageUrl DEX_ID JSON_parse Number_toString localStorage None
  = Some ("/market/" +:+ parsed)
  /\ Routes DEX_ID JSON_parse Number_toString localStorage ≫= head
     = Some {| exact := true; path := "/"; target := Redirect ("/market/" +:+ parsed) |}
  /\ forall given, given <> "" ->
       getTradePageUrl DEX_ID JSON_parse Number_toString localStorage (Some given)
       = Some ("/market/" +:+ given).
Proof.
  intros Hsaved Hne Hvalue Hparsed.
  assert (Hurl : getTradePageUrl DEX_ID JSON_parse Number_toString localStorage None
                 = Some ("/market/" +:+ parsed)).
  { rewrite getTradePageUrl_stored by reflexivity. rewrite Hsaved.
    change (truthy saved) with (negb (String.eqb saved "")).
    rewrite (proj2 (String.eqb_neq _ _) Hne), Hvalue. cbn [negb mbind option_bind].
    now rewrite Hparsed. }
  split; [exact Hurl|]. split.
  - unfold Routes. now rewrite Hurl.
  - intros given. apply getTradePageUrl_given.
Qed.

End TradePageFacts.

(** A browser that stored the address of the shipped market. *)
Lemma getTradePageUrl_stored_preference_witness :
  getTradePageUrl fixtureDexId parseQuoted noNumberText
    {[ "marketAddress" := quoted (toBase58 marketAddress) ]} None
  = Some "/market/BT7i1viSJSQBHQ1jWVs7VWPBrY3gT5PLbYm9f62F7ZhR"
  /\ Routes fixtureDexId parseQuoted noNumberText
       {[ "marketAddress" := quoted (toBase58 marketAddress) ]} ≫= head
     = Some {| exact := true; path := "/";
               target := Redirect "/market/BT7i1viSJSQBHQ1jWVs7VWPBrY3gT5PLbYm9f62F7ZhR" |}
  /\ forall given, given <> "" ->
       getTradePageUrl fixtureDexId parseQuoted noNumberText
         {[ "marketAddress" := quoted (toBase58 marketAddress) ]} (Some given)
       = Some ("/market/" +:+ given).
Proof.
  apply (getTradePageUrl_stored_preference fixtureDexId parseQuoted noNumberText
           {[ "marketAddress" := quoted (toBase58 marketAddress) ]}
           (quoted (toBase58 marketAddress)) (JString (toBase58 marketAddress))
           (toBase58 marketAddress)).
  - reflexivity.
  - discriminate.
  - reflexivity.
  - reflexivity.
Defined.

(** Stored texts that parse and still make [getTradePageUrl] throw, or
    print what is no address: an object with a member [toString], an
    array that holds one, a plain object, an array, [true]. *)
Example getTradePageUrl_parsed_values :
  let run value :=
    getTradePageUrl fixtureDexId (fun _ => Some value) noNumberText
      {[ "marketAddress" := "stored" ]} None in
  run (JObject [("toString", JNumber 0)]) = None
  /\ run (JArray [JString "a"; JObject [("toString", JNull)]]) = None
  /\ run (JObject [("address", JString "a")]) = Some "/market/[object Object]"
  /\ run (JArray [JString "a"; JNull; JArray [JString "b"; JString "c"]])
     = Some "/market/a,,b,c"
  /\ run (JBool true) = Some "/market/true"
  /\ run JNull = Some "/market/"
  /\ run (JArray []) = Some "/market/".
Proof. cbv zeta. repeat split. Qed.

(** ** What the fetchers ask of the network *)

(** X15. [getOpenOrdersAccounts] sends one request, for the wallet's key on
    the loaded market, when connected with a wallet and a market, and none
    otherwise; its promise is rejected only with the error of that request.
    [getTokenAccounts] does the same without needing a market. *)
Theorem fetchers_requests source connected wallet market connection :
  fst (run source (getOpenOrdersAccounts connected wallet market connection))
  = match connected, wallet, market with
    | true, Some w, Some m => [findOpenOrdersAccountForOwner m connection (publicKey w)]
    | _, _, _ => []
    end
  /\ (forall e,
        snd (run source (getOpenOrdersAccounts connected wallet market connection)) = Failed e
        <-> exists w m,
              connected = true /\ wallet = Some w /\ market = Some m
              /\ source (findOpenOrdersAccountForOwner m connection (publicKey w)) = inr e)
  /\ fst (run source (getTokenAccounts connected wallet connection))
     = match connected, wallet with
       | true, Some w => [getTokenAccountInfo connection (publicKey w)]
       | _, _ => []
       end
  /\ (forall e,
        snd (run source (getTokenAccounts connected wallet connection)) = Failed e
        <-> exists w,
              connected = true /\ wallet = Some w
              /\ source (getTokenAccountInfo connection (publicKey w)) = inr e).
Proof.
  destruct connected, wallet as [w|], market as [m|];
    cbn [getOpenOrdersAccounts getTokenAccounts negb orb truthy option_truthy
         Wallet_truthy Market_truthy run];
    repeat match goal with
           | |- context [source ?c] => destruct (source c) eqn:?
           end;
    cbn [run fst snd];
    repeat split; try discriminate; try reflexivity;
    try (intros [= <-]; eauto 10);
    try (intros (? & ? & ? & ? & ? & ?)); try (intros (? & ? & ? & ?));
    try discriminate;
    repeat match goal with
           | H : Some _ = Some _ |- _ => injection H as H; subst
           end;
    congruence.
Qed.

(** X16. The fetcher of [_useUnfilteredTrades] asks for the fills of the
    loaded market, with the limit it was given, once a market and a
    connection are there, and the fetcher of [useOrderbookAccounts] for the
    order book at the market's address; without a market neither sends a
    request, and either promise is rejected only with the error of its
    request. *)
Theorem market_fetchers_requests source market connection limit :
  requests (runTask source (getUnfilteredTrades market (Some connection) limit))
  = match market with
    | Some m => [loadFills m connection limit]
    | None => []
    end
  /\ requests (runTask source (getUnfilteredTrades market None limit)) = []
  /\ requests (runTask source (loadOrderbookAccounts market connection))
     = match market with
       | Some m => [Orderbook_load connection (address m)]
       | None => []
       end
  /\ (forall e,
        settled (runTask source (getUnfilteredTrades market (Some connection) limit))
        = Failed e
        <-> exists m, market = Some m /\ source (loadFills m connection limit) = inr e)
  /\ (forall e,
        settled (runTask source (loadOrderbookAccounts market connection)) = Failed e
        <-> exists m, market = Some m
                      /\ source (Orderbook_load connection (address m)) = inr e).
Proof.
  destruct market as [m|]; cbn [getUnfilteredTrades loadOrderbookAccounts runTask];
    repeat match goal with
           | |- context [source ?c] => destruct (source c) eqn:?
           end;
    cbn [runTask requests settled];
    repeat split; try discriminate; try reflexivity;
    try (intros [= <-]; eauto);
    try (intros (? & ? & ?)); try discriminate;
    repeat match goal with
           | H : Some _ = Some _ |- _ => injection H as H; subst
           end;
    congruence.
Qed.

(** ** Fee discount keys *)

(** X17. [getFeeDiscountKeys] stores at most one key, and when it does it is
    the address of the first fee discount account of the list it then
    resolves with. *)
Theorem getFeeDiscountKeys_stores_first source connected wallet market connection :
  storedKeys (runTask source (getFeeDiscountKeys connected wallet market connection)) = []
  \/ exists first rest,
       settled (runTask source (getFeeDiscountKeys connected wallet market connection))
       = Fulfilled (Some (first :: rest))
       /\ storedKeys (runTask source (getFeeDiscountKeys connected wallet market connection))
          = [toBase58 (fdPubkey first)].
Proof.
  destruct connected, wallet as [w|], market as [m|]; try (left; reflexivity).
  cbn [getFeeDiscountKeys negb orb truthy option_truthy Wallet_truthy Market_truthy runTask].
  destruct (source _) as [[[|first rest]|]|e]; cbn; eauto.
Qed.

(** X18. A wallet without any fee discount account makes the fetcher fail:
    on an empty list [feeDiscountKey[0].pubkey] throws, so the promise is
    rejected with a TypeError instead of resolving with the empty list, and
    nothing is stored. *)
Theorem getFeeDiscountKeys_empty_list
    (source : forall call, MarketResponse call + string) w m connection :
  source (findFeeDiscountKeys m connection (publicKey w)) = inl (Some []) ->
  settled (runTask source (getFeeDiscountKeys true (Some w) (Some m) connection))
  = Failed "TypeError"
  /\ storedKeys (runTask source (getFeeDiscountKeys true (Some w) (Some m) connection)) = []
  /\ requests (runTask source (getFeeDiscountKeys true (Some w) (Some m) connection))
     = [findFeeDiscountKeys m connection (publicKey w)].
Proof.
  intros Hsource.
  cbn [getFeeDiscountKeys negb orb truthy option_truthy Wallet_truthy Market_truthy runTask].
  rewrite Hsource. repeat split.
Qed.

(** The fixture wallet on the fixture market, with nothing to discount. *)
Lemma getFeeDiscountKeys_empty_list_witness :
  settled (runTask emptySource
             (getFeeDiscountKeys true (Some fixtureWallet) (Some fixtureMarket)
                fixtureConnection))
  = Failed "TypeError"
  /\ storedKeys (runTask emptySource
                   (getFeeDiscountKeys true (Some fixtureWallet) (Some fixtureMarket)
                      fixtureConnection)) = []
  /\ requests (runTask emptySource
                 (getFeeDiscountKeys true (Some fixtureWallet) (Some fixtureMarket)
                    fixtureConnection))
     = [findFeeDiscountKeys fixtureMarket fixtureConnection (publicKey fixtureWallet)].
Proof.
  apply (getFeeDiscountKeys_empty_list emptySource fixtureWallet fixtureMarket
           fixtureConnection).
  reflexivity.
Defined.

(** With one fee discount account its address is stored. *)
Example getFeeDiscountKeys_fixture :
  runTask feeKeySource
    (getFeeDiscountKeys true (Some fixtureWallet) (Some fixtureMarket) fixtureConnection)
  = {| requests :=
         [findFeeDiscountKeys fixtureMarket fixtureConnection (publicKey fixtureWallet)];
       storedKeys := ["FeeAccount"];
       settled := Fulfilled (Some [fixtureFeeKey]) |}.
Proof. reflexivity. Qed.

(** ** The mints of the balances over all markets *)

Lemma addBalance_keys mint amount balances k :
  List.In k (map fst (addBalance mint amount balances))
  <-> k = mint \/ List.In k (map fst balances).
Proof.
  induction balances as [|[k' v'] rest IH]; cbn.
  - intuition congruence.
  - destruct (String.eqb_spec k' mint) as [->|Hne]; cbn; [|rewrite IH]; intuition congruence.
Qed.

Lemma addBalance_NoDup mint amount balances :
  List.NoDup (map fst balances) ->
  List.NoDup (map fst (addBalance mint amount balances)).
Proof.
  induction balances as [|[k' v'] rest IH]; cbn; intros Hnd.
  - repeat constructor. intros [].
  - apply List.NoDup_cons_iff in Hnd as [Hk Hrest].
    destruct (String.eqb_spec k' mint) as [->|Hne]; cbn.
    + now constructor.
    + constructor; [|auto]. rewrite addBalance_keys. intuition congruence.
Qed.

Section AllMarketsMints.

Variable divideBnToNumber : BN -> BN -> number.
Variable parseTokenAccountData : list Byte.byte -> ParsedAccount.

Lemma foldl_addContribution_keys mintInfos tokenAccounts balances :
  List.NoDup (map fst balances) ->
  List.NoDup
    (map fst (foldl (addContribution divideBnToNumber parseTokenAccountData mintInfos)
                    balances tokenAccounts))
  /\ forall mint,
       List.In mint
         (map fst (foldl (addContribution divideBnToNumber parseTokenAccountData mintInfos)
                         balances tokenAccounts))
       <-> List.In mint (map fst balances)
           \/ exists a, List.In a tokenAccounts
                        /\ fst <$> contribution divideBnToNumber parseTokenAccountData
                                     mintInfos a = Some mint.
Proof.
  revert balances. induction tokenAccounts as [|a rest IH]; intros balances Hnd; cbn [foldl].
  - split; [exact Hnd|]. intros mint. split; [auto|]. now intros [H|(a & [] & _)].
  - unfold addContribution at 2 4.
    destruct (contribution _ _ _ a) as [[k v]|] eqn:Hc.
    + destruct (IH (addBalance k v balances) (addBalance_NoDup k v balances Hnd))
        as [Hnd' Hin].
      split; [exact Hnd'|]. intros mint. rewrite Hin, addBalance_keys. split.
      * intros [[->|H]|(b & Hb & Hm)]; eauto.
        -- right. exists a. split; [now left|]. now rewrite Hc.
        -- right. exists b. split; [now right|exact Hm].
      * intros [H|(b & [<-|Hb] & Hm)]; eauto.
        rewrite Hc in Hm. injection Hm as <-. auto.
    + destruct (IH balances Hnd) as [Hnd' Hin].
      split; [exact Hnd'|]. intros mint. rewrite Hin. split.
      * intros [H|(b & Hb & Hm)]; eauto. right. exists b. split; [now right|exact Hm].
      * intros [H|(b & [<-|Hb] & Hm)]; eauto. rewrite Hc in Hm. discriminate.
Qed.

(** X19. When [useWalletBalancesForAllMarkets] reports balances, it reports
    each mint once, and the mints it reports are those of the token
    accounts whose account data is there: the native mint for a wrapped-SOL
    account, the decoded mint for any other. It throws instead exactly when
    the raw amount of one of these accounts is 2^53 or more in
    magnitude. *)
Theorem useWalletBalancesForAllMarkets_mints tokenAccounts mintInfos :
  match useWalletBalancesForAllMarkets divideBnToNumber parseTokenAccountData
          tokenAccounts true mintInfos true with
  | Some balances =>
      List.Forall (fun a => convertible parseTokenAccountData a = true)
                  (default [] tokenAccounts)
      /\ List.NoDup (map fst balances)
      /\ forall mint,
           List.In mint (map fst balances)
           <-> exists a, List.In a (default [] tokenAccounts)
                         /\ fst <$> contribution divideBnToNumber parseTokenAccountData
                                      mintInfos a = Some mint
  | None =>
      exists a parsedAccount,
        List.In a (default [] tokenAccounts)
        /\ parsedAccountOf parseTokenAccountData a = Some parsedAccount
        /\ 2 ^ 53 <= Z.abs (paAmount parsedAccount)
  end.
Proof.
  unfold useWalletBalancesForAllMarkets. cbn [negb orb].
  rewrite forOf_walletBalanceStep.
  destruct (forallb _ (default [] tokenAccounts)) eqn:Hall.
  - split; [apply List.Forall_forall, (proj1 (List.forallb_forall _ _) Hall)|].
    destruct (foldl_addContribution_keys mintInfos (default [] tokenAccounts) [])
      as [Hnd Hin]; [constructor|].
    split; [exact Hnd|]. intros mint. rewrite Hin. cbn. tauto.
  - assert (Hex : existsb (fun a => negb (convertible parseTokenAccountData a))
                    (default [] tokenAccounts) = true).
    { induction (default [] tokenAccounts) as [|a rest IH]; [discriminate|].
      cbn in *. destruct (convertible parseTokenAccountData a); cbn in *; auto. }
    apply existsb_exists in Hex as (a & Hin & Ha). apply negb_true_iff in Ha.
    unfold convertible in Ha.
    destruct (parsedAccountOf parseTokenAccountData a) as [parsedAccount|] eqn:Hp;
      [|discriminate].
    exists a, parsedAccount. split; [exact Hin|]. split; [exact Hp|].
    apply Z.ltb_ge in Ha. exact Ha.
Qed.

End AllMarketsMints.

(** ** The entries of the open-orders balances *)

Lemma ensureKey_keys mint balances k :
  List.In k (map fst (ensureKey mint balances))
  <-> k = mint \/ List.In k (map fst balances).
Proof.
  induction balances as [|[k' v'] rest IH]; cbn.
  - intuition congruence.
  - destruct (String.eqb_spec k' mint) as [->|Hne]; cbn; [|rewrite IH]; intuition congruence.
Qed.

Lemma ensureKey_NoDup mint balances :
  List.NoDup (map fst balances) -> List.NoDup (map fst (ensureKey mint balances)).
Proof.
  induction balances as [|[k' v'] rest IH]; cbn; intros Hnd.
  - repeat constructor. intros [].
  - destruct (String.eqb_spec k' mint) as [->|Hne]; cbn; [exact Hnd|].
    apply List.NoDup_cons_iff in Hnd as [Hk Hrest].
    constructor; [|auto]. rewrite ensureKey_keys. intuition congruence.
Qed.

Lemma ensureKey_entryCount mint balances :
  entryCount (ensureKey mint balances) = entryCount balances.
Proof.
  unfold entryCount. induction balances as [|[k' v'] rest IH]; cbn; [reflexivity|].
  destruct (String.eqb k' mint); cbn; [reflexivity|].
  rewrite !List.length_app. now rewrite IH.
Qed.

Lemma pushBalance_keys mint entry balances :
  map fst (pushBalance mint entry balances) = map fst balances.
Proof.
  induction balances as [|[k' v'] rest IH]; cbn; [reflexivity|].
  destruct (String.eqb k' mint); cbn; [reflexivity|now rewrite IH].
Qed.

Lemma pushBalance_entryCount mint entry balances :
  List.In mint (map fst balances) ->
  entryCount (pushBalance mint entry balances) = S (entryCount balances).
Proof.
  unfold entryCount. induction balances as [|[k' v'] rest IH]; cbn; [intros []|].
  destruct (String.eqb_spec k' mint) as [->|Hne]; cbn.
  - intros _. rewrite !List.length_app. cbn. lia.
  - intros [?|Hin]; [congruence|]. rewrite !List.length_app, IH by exact Hin. lia.
Qed.

Section OpenOrdersEntries.

Variable divideBnToNumber : BN -> BN -> number.

Lemma openOrdersBalanceStep_entries marketsByAddress mintInfos balances account :
  List.NoDup (map fst balances) ->
  List.NoDup
    (map fst (openOrdersBalanceStep divideBnToNumber marketsByAddress mintInfos
                balances account))
  /\ entryCount (openOrdersBalanceStep divideBnToNumber marketsByAddress mintInfos
                   balances account)
     = S (S (entryCount balances)).
Proof.
  intros Hnd. unfold openOrdersBalanceStep. cbv zeta.
  set (baseMint := default "undefined" (_ <$> _)).
  set (quoteMint := default "undefined" (_ <$> _)).
  split.
  - rewrite !pushBalance_keys. now apply ensureKey_NoDup, ensureKey_NoDup.
  - rewrite pushBalance_entryCount, pushBalance_entryCount, !ensureKey_entryCount.
    + reflexivity.
    + rewrite !ensureKey_keys. auto.
    + rewrite pushBalance_keys, ensureKey_keys. auto.
Qed.

Lemma foldl_openOrdersBalanceStep_entries marketsByAddress mintInfos accounts balances :
  List.NoDup (map fst balances) ->
  List.NoDup
    (map fst (foldl (openOrdersBalanceStep divideBnToNumber marketsByAddress mintInfos)
                    balances accounts))
  /\ entryCount (foldl (openOrdersBalanceStep divideBnToNumber marketsByAddress mintInfos)
                       balances accounts)
     = (2 * length accounts + entryCount balances)%nat.
Proof.
  revert balances. induction accounts as [|a rest IH]; intros balances Hnd; cbn [foldl].
  - auto.
  - destruct (openOrdersBalanceStep_entries marketsByAddress mintInfos balances a Hnd)
      as [Hnd' Hcount].
    destruct (IH _ Hnd') as [Hnd'' Hcount'].
    split; [exact Hnd''|]. rewrite Hcount', Hcount. cbn [length]. lia.
Qed.

(** X20. Once the accounts and the mint infos are loaded,
    [useAllOpenOrdersBalances] lists each mint once and holds exactly two
    entries for every open-orders account, whether or not the market of the
    account is among the loaded markets. *)
Theorem useAllOpenOrdersBalances_entries openOrdersAccounts mintInfos allMarkets :
  List.NoDup
    (map fst (useAllOpenOrdersBalances divideBnToNumber openOrdersAccounts true
                mintInfos true allMarkets))
  /\ entryCount (useAllOpenOrdersBalances divideBnToNumber openOrdersAccounts true
                   mintInfos true allMarkets)
     = (2 * length (default [] openOrdersAccounts))%nat.
Proof.
  unfold useAllOpenOrdersBalances. cbn [negb orb]. cbv zeta.
  destruct (foldl_openOrdersBalanceStep_entries
              (list_to_map
                 (reverse (map (fun m => (toBase58 (address (lmMarket m)), m))
                               (default [] allMarkets))))
              mintInfos (default [] openOrdersAccounts) []) as [Hnd Hcount];
    [constructor|].
  split; [exact Hnd|]. rewrite Hcount. cbn. lia.
Qed.

Lemma openOrdersBalanceStep_unloaded marketsByAddress mintInfos balances account :
  marketsByAddress !! toBase58 (ooMarket account) = None ->
  map fst balances = [] \/ map fst balances = ["undefined"] ->
  map fst (openOrdersBalanceStep divideBnToNumber marketsByAddress mintInfos
             balances account)
  = ["undefined"].
Proof.
  intros Hnone Hkeys. unfold openOrdersBalanceStep. cbv zeta. rewrite Hnone.
  cbn [fmap option_fmap option_map default]. rewrite !pushBalance_keys.
  destruct balances as [|[k v] [|? ?]]; destruct Hkeys as [Hk|Hk]; try discriminate.
  - reflexivity.
  - injection Hk as ->. reflexivity.
Qed.

(** X21. Open-orders accounts none of whose markets is among the loaded
    markets are all filed under the one key "undefined". *)
Theorem useAllOpenOrdersBalances_unloaded_markets accounts mintInfos allMarkets :
  accounts <> [] ->
  (forall a m, List.In a accounts -> List.In m (default [] allMarkets) ->
               toBase58 (address (lmMarket m)) <> toBase58 (ooMarket a)) ->
  map fst (useAllOpenOrdersBalances divideBnToNumber (Some accounts) true
             mintInfos true allMarkets)
  = ["undefined"].
Proof.
  intros Hne Hunloaded. unfold useAllOpenOrdersBalances. cbn [negb orb]. cbv zeta.
  change (default [] (Some accounts)) with accounts.
  set (marketsByAddress := list_to_map _ : gmap string LoadedMarket).
  assert (Hnone : forall a, List.In a accounts ->
                            marketsByAddress !! toBase58 (ooMarket a) = None).
  { intros a Ha. apply not_elem_of_list_to_map_1.
    rewrite list_elem_of_fmap. intros ([k m] & Hk & Hin). cbn in Hk. subst k.
    apply elem_of_reverse, list_elem_of_In, List.in_map_iff in Hin as (m' & [= Hm <-] & Hin).
    now apply (Hunloaded a m' Ha Hin). }
  clearbody marketsByAddress.
  assert (Hfold : forall rest balances,
            (forall a, List.In a rest ->
                       marketsByAddress !! toBase58 (ooMarket a) = None) ->
            map fst balances = ["undefined"] ->
            map fst (foldl (openOrdersBalanceStep divideBnToNumber marketsByAddress mintInfos)
                           balances rest) = ["undefined"]).
  { induction rest as [|a rest IH]; intros balances Hrest Hkeys; [exact Hkeys|].
    cbn [foldl]. apply IH; [intros b Hb; apply Hrest; now right|].
    apply openOrdersBalanceStep_unloaded; [apply Hrest; now left|now right]. }
  destruct accounts as [|a rest]; [congruence|]. cbn [foldl].
  apply Hfold; [intros b Hb; apply Hnone; now right|].
  apply openOrdersBalanceStep_unloaded; [apply Hnone; now left|now left].
Qed.

End OpenOrdersEntries.

(** The fixture account while no market is loaded. *)
Lemma useAllOpenOrdersBalances_unloaded_markets_witness :
  map fst (useAllOpenOrdersBalances scalingDivision (Some [fixtureOpenOrders]) true
             (Some fixtureMintInfos) true None)
  = ["undefined"].
Proof.
  apply (useAllOpenOrdersBalances_unloaded_markets scalingDivision [fixtureOpenOrders]
           (Some fixtureMintInfos) None).
  - discriminate.
  - intros a m _ [].
Defined.

(** ** The raw amount of a token account *)

Lemma BN_le_bounds bytes : 0 <= BN_le bytes < 256 ^ Z.of_nat (length bytes).
Proof.
  induction bytes as [|b rest IH]; [cbn; lia|].
  cbn [BN_le length]. rewrite Nat2Z.inj_succ, Z.pow_succ_r by lia.
  pose proof (Byte.to_N_bounded b) as Hb. lia.
Qed.

Lemma slice_length {A} (from to : nat) (l : list A) :
  (length (slice from to l) <= to - from)%nat
  /\ ((length l <= from)%nat -> slice from to l = []).
Proof.
  unfold slice. split.
  - rewrite length_take. lia.
  - intros Hshort. now rewrite drop_ge, take_nil.
Qed.

Section WalletAmount.

Variable divideBnToNumber : BN -> BN -> number.

(** X22. The wallet balance of the base currency, when it is not wrapped
    SOL, is one conversion of the raw amount in bytes 64 to 72 of the
    account data, read little-endian: the first of the eight bytes counts
    once, the last 2^56 times. The amount is an unsigned 64-bit integer,
    and 0 when the data is too short to hold the field. *)
Theorem wallet_amount_is_u64 h m tokenAccount info :
  market h = Some m ->
  equals (baseMintAddress m) WRAPPED_SOL_MINT = false ->
  useSelectedBaseCurrencyAccount h = Some tokenAccount ->
  useAccountInfo h (Some (pubkey tokenAccount)) = (Some info, true) ->
  useSelectedBaseCurrencyBalances divideBnToNumber h
  = Some (divideBnToNumber (BN_le (slice 64 72 (data info)))
            (10 ^ Z.of_nat (baseDecimals m)))
  /\ 0 <= BN_le (slice 64 72 (data info)) < 2 ^ 64
  /\ ((length (data info) <= 64)%nat -> BN_le (slice 64 72 (data info)) = 0)
  /\ forall before b0 b1 b2 b3 b4 b5 b6 b7 after,
       data info = before ++ [b0; b1; b2; b3; b4; b5; b6; b7] ++ after ->
       length before = 64%nat ->
       BN_le (slice 64 72 (data info))
       = Z.of_N (Byte.to_N b0) + Z.of_N (Byte.to_N b1) * 2 ^ 8
         + Z.of_N (Byte.to_N b2) * 2 ^ 16 + Z.of_N (Byte.to_N b3) * 2 ^ 24
         + Z.of_N (Byte.to_N b4) * 2 ^ 32 + Z.of_N (Byte.to_N b5) * 2 ^ 40
         + Z.of_N (Byte.to_N b6) * 2 ^ 48 + Z.of_N (Byte.to_N b7) * 2 ^ 56.
Proof.
  intros Hm Hmint Haccount Hinfo. split; [|split; [|split]].
  - unfold useSelectedBaseCurrencyBalances.
    rewrite Haccount. cbn [fmap option_fmap option_map]. rewrite Hinfo, Hm.
    now rewrite Hmint.
  - pose proof (BN_le_bounds (slice 64 72 (data info))) as Hb.
    destruct (slice_length 64 72 (data info)) as [Hlen _].
    assert (256 ^ Z.of_nat (length (slice 64 72 (data info))) <= 256 ^ 8)
      by (apply Z.pow_le_mono_r; lia).
    change (2 ^ 64) with (256 ^ 8). lia.
  - intros Hshort. destruct (slice_length 64 72 (data info)) as [_ Hnil].
    now rewrite Hnil.
  - intros before b0 b1 b2 b3 b4 b5 b6 b7 after Hdata Hbefore.
    rewrite Hdata. unfold slice.
    rewrite drop_app_length' by (symmetry; exact Hbefore).
    change (take (72 - 64) ([b0; b1; b2; b3; b4; b5; b6; b7] ++ after))
      with [b0; b1; b2; b3; b4; b5; b6; b7].
    cbn [BN_le]. lia.
Qed.

End WalletAmount.

(** The fixture wallet holds 123456789 raw units of the base currency:
    the bytes 15 cd 5b 07 00 00 00 00 at offset 64. *)
Lemma wallet_amount_is_u64_witness :
  useSelectedBaseCurrencyBalances scalingDivision (fixtureHooks None)
  = Some (scalingDivision 123456789 (10 ^ 6))
  /\ BN_le (slice 64 72 fixtureTokenData)
     = 0x15 + 0xcd * 2 ^ 8 + 0x5b * 2 ^ 16 + 0x07 * 2 ^ 24.
Proof.
  destruct (wallet_amount_is_u64 scalingDivision (fixtureHooks None) fixtureMarket
              fixtureBaseAccount {| lamports := 2039280; data := fixtureTokenData |}
              eq_refl eq_refl eq_refl eq_refl) as (Hbalance & _ & _ & Hbytes).
  split; [exact Hbalance|].
  exact (Hbytes (repeat Byte.x00 64) Byte.x15 Byte.xcd Byte.x5b Byte.x07
           Byte.x00 Byte.x00 Byte.x00 Byte.x00 [] eq_refl eq_refl).
Defined.

(** The quote account of the fixture carries other bytes before and after
    its amount field; only the field is read. *)
Example wallet_amount_field_only :
  useSelectedQuoteCurrencyBalances scalingDivision (fixtureHooks None)
  = Some 12.5%float.
Proof. reflexivity. Qed.
